(** * taskgraph: node bootstrap, neighbour watches and the checkpoint store

    A shallow embedding of [framework/bootstrap.go] and [store/s3.go].

    Everything the Go code does to the outside world (the etcd cluster, the
    S3 bucket, the user's [Task]) is threaded explicitly: the coordination
    store and the bucket are state, calls into the task and the logger are
    recorded in a trace, [log.Fatalf] and [panic] end the computation. The
    store is threaded through the main goroutine alone; what other nodes do
    to it shows as the state the node finds and as the events its watches
    receive, which are inputs of a run. Goroutines are lists of events
    interleaved by a step relation. *)

From Stdlib Require Import ZArith Lia String Ascii List.
From Stdlib Require Import Init.Byte.
From stdpp Require Import base option list strings gmap sorting pretty.

Open Scope Z_scope.
Open Scope string_scope.

(** ** Go values *)

(** Go's [error] interface: the values this package creates or inspects are
    plain messages ([errors.New], [fmt.Errorf]) and the etcd client's
    [*etcd.EtcdError], which carries the store's error code. *)
Inductive error : Type :=
| errorString (msg : string)
| EtcdError (ErrorCode : Z) (Message : string).

(** [uint64] arithmetic wraps modulo 2^64. *)
Definition uint64_max : Z := 2 ^ 64 - 1.
Definition wrap64 (z : Z) : Z := z mod 2 ^ 64.
Definition add64 (a b : Z) : Z := wrap64 (a + b).
Definition is_uint64 (z : Z) : Prop := 0 <= z <= uint64_max.

(** ** store/s3.go *)

Module Store.

(** [bytes.Buffer]: the contents are the bytes of [buf] from offset [off]
    on; reading advances [off], writing appends to [buf]. *)
Record Buffer : Type := mkBuffer { buf : list byte; off : nat }.

Definition NewBuffer (b : list byte) : Buffer := mkBuffer b 0.
Definition Bytes (b : Buffer) : list byte := drop (off b) (buf b).
Definition Len (b : Buffer) : nat := (length (buf b) - off b)%nat.
Definition Reset (b : Buffer) : Buffer := mkBuffer [] 0.

Definition EOF : error := errorString "EOF".

(** [Buffer.Write] appends [p]; an emptied buffer is reset first. It never
    returns an error. *)
Definition Buffer_Write (b : Buffer) (p : list byte)
  : Buffer * (nat * option error) :=
  let b := if (Len b =? 0)%nat && negb (off b =? 0)%nat then Reset b else b in
  (mkBuffer (buf b ++ p) (off b), (length p, None)).

(** [Buffer.Read] into a slice of length [n]: the bytes copied, their
    number, and [io.EOF] when the buffer has nothing left. *)
Definition Buffer_Read (b : Buffer) (n : nat)
  : Buffer * (list byte * nat * option error) :=
  if (Len b =? 0)%nat then
    (Reset b, ([], 0%nat, if (n =? 0)%nat then None else Some EOF))
  else
    let data := take n (Bytes b) in
    (mkBuffer (buf b) (off b + length data), (data, length data, None)).

(** The canned ACL passed to [Put]. *)
Inductive ACL : Type := Private | PublicRead | BucketOwnerRead | BucketOwnerFull.

Record PutRequest : Type := mkPut
  { put_bucket : string; put_path : string; put_data : list byte;
    put_contType : string; put_perm : ACL }.

(** The object store as [goamz] exposes it: objects by bucket and key, the
    put requests it has received so far (oldest first), and whether it
    answers at all. *)
Record S3 : Type := mkS3
  { objects : gmap (string * string) (list byte);
    puts : list PutRequest;
    online : bool }.

Definition Bucket_Put (s : S3) (bkt path : string) (data : list byte)
           (contType : string) (perm : ACL) : S3 * option error :=
  let req := mkPut bkt path data contType perm in
  if online s then
    (mkS3 (<[(bkt, path) := data]> (objects s)) (puts s ++ [req]) true, None)
  else
    (mkS3 (objects s) (puts s ++ [req]) false,
     Some (errorString "s3: request failed")).

Definition Bucket_Get (s : S3) (bkt path : string) : list byte + error :=
  if online s then
    match objects s !! (bkt, path) with
    | Some b => inl b
    | None => inr (errorString "The specified key does not exist.")
    end
  else inr (errorString "s3: request failed").

(** [S3File]: the embedded bucket handle, the key, and the buffer. *)
Record S3File : Type := mkS3File
  { Bucket : string; keyPath : string; fbuf : Buffer }.

(** Every method of the [File] interface runs against the object store and
    the file, and hands both back. *)
Definition Read (s : S3) (f : S3File) (n : nat)
  : S3 * S3File * (list byte * nat * option error) :=
  let '(b, r) := Buffer_Read (fbuf f) n in
  (s, mkS3File (Bucket f) (keyPath f) b, r).

Definition Write (s : S3) (f : S3File) (p : list byte)
  : S3 * S3File * (nat * option error) :=
  let '(b, r) := Buffer_Write (fbuf f) p in
  (s, mkS3File (Bucket f) (keyPath f) b, r).

Definition Sync (s : S3) (f : S3File) : S3 * S3File * option error :=
  let '(s', err) :=
    Bucket_Put s (Bucket f) (keyPath f) (Bytes (fbuf f)) "binary" BucketOwnerFull in
  (s', f, err).

(** [S3Store.Open]: [goamz]'s [Bucket] always returns a handle, so the
    [nil] test never fires. *)
Definition Open (s : S3) (path name : string) : S3File + error :=
  match Bucket_Get s path name with
  | inr err => inr err
  | inl b => inl (mkS3File path name (NewBuffer b))
  end.

(** A run of [Write] calls, one per element of [ps], in order. *)
Fixpoint Writes (s : S3) (f : S3File) (ps : list (list byte)) : S3 * S3File :=
  match ps with
  | [] => (s, f)
  | p :: ps' => let '(s', f', _) := Write s f p in Writes s' f' ps'
  end.

End Store.

(** ** Go's [path.Base] *)

Fixpoint drop_slashes (l : list ascii) : list ascii :=
  match l with
  | c :: l' => if Ascii.eqb c "/" then drop_slashes l' else l
  | [] => []
  end.

Fixpoint last_element (l : list ascii) : list ascii :=
  match l with
  | c :: l' => if Ascii.eqb c "/" then [] else c :: last_element l'
  | [] => []
  end.

(** [Base]: the last element of the path, trailing slashes removed; ["."]
    for the empty path and ["/"] for a path of slashes only. The scan runs
    over the reversed path. *)
Definition Base (path : string) : string :=
  if String.eqb path "" then "."
  else
    let stripped := drop_slashes (rev (list_ascii_of_string path)) in
    let elem := rev (last_element stripped) in
    match elem with
    | [] => "/"
    | _ => string_of_list_ascii elem
    end.

(** ** The coordination store

    The etcd cluster is outside the repository; this is the part of its
    behaviour the framework relies on: keys with values and modification
    indices, one global change index, the log of change events that watches
    replay, and directory listings. *)

Module Etcd.

#[warnings="-register-all"]
Inductive Node : Type := mkNode
  { Key : string; Value : string; Dir : bool;
    ModifiedIndex : Z; Nodes : list Node }.

(** [RNode] is the Go field [Response.Node]. *)
Record Response : Type := mkResponse
  { Action : string; RNode : Node; EtcdIndex : Z }.

Record store : Type := mkStore
  { index : Z;
    nodes : gmap string Node;
    history : list Response;
    (** When set, this client's requests are answered with that error. *)
    fault : option error }.

Definition EcodeKeyNotFound : Z := 100.
Definition EcodeTestFailed : Z := 101.

Definition is_child (dir k : string) : bool :=
  let pfx := if String.eqb dir "/" then "/" else dir ++ "/" in
  let rest := substring (String.length pfx) (String.length k - String.length pfx) k in
  String.prefix pfx k && negb (String.eqb rest "")
    && match String.index 0 "/" rest with None => true | Some _ => false end.

Definition key_le (a b : Node) : Prop := String.leb (Key a) (Key b) = true.

#[global] Instance key_le_dec a b : Decision (key_le a b).
Proof. unfold key_le. apply _. Defined.

(** The children of [dir], by key when [sorted], with the contents of
    sub-directories filled in when [recursive]. *)
Fixpoint list_dir (fuel : nat) (s : store) (sorted recursive : bool)
         (dir : string) : list Node :=
  match fuel with
  | O => []
  | S fuel' =>
      let ch := map snd (List.filter (fun kn => is_child dir (fst kn))
                                     (map_to_list (nodes s))) in
      let ch := if sorted then merge_sort key_le ch else ch in
      map (fun n =>
             if Dir n && recursive
             then mkNode (Key n) (Value n) true (ModifiedIndex n)
                         (list_dir fuel' s sorted recursive (Key n))
             else n) ch
  end.

Definition Get (s : store) (key : string) (sorted recursive : bool)
  : Response + error :=
  match fault s with
  | Some e => inr e
  | None =>
      match nodes s !! key with
      | None => inr (EtcdError EcodeKeyNotFound "Key not found")
      | Some n =>
          let n' := if Dir n
                    then mkNode (Key n) (Value n) true (ModifiedIndex n)
                                (list_dir (size (nodes s)) s sorted recursive key)
                    else n in
          inl (mkResponse "get" n' (index s))
      end
  end.

(** A change: the index advances, the node is replaced, the event is
    appended to the log. *)
Definition commit (s : store) (action : string) (n : Node)
           (m : gmap string Node) : store :=
  mkStore (index s + 1) m (history s ++ [mkResponse action n (index s + 1)])
          (fault s).

Definition Set_ (s : store) (key value : string) : store :=
  let n := mkNode key value false (index s + 1) [] in
  commit s "set" n (<[key := n]> (nodes s)).

Definition SetDir (s : store) (key : string) : store :=
  let n := mkNode key "" true (index s + 1) [] in
  commit s "set" n (<[key := n]> (nodes s)).

Definition Delete (s : store) (key : string) : store :=
  match nodes s !! key with
  | None => s
  | Some _ =>
      commit s "delete" (mkNode key "" false (index s + 1) [])
             (delete key (nodes s))
  end.

(** The atomic conditional write: it goes through only when the key holds
    [prevValue]. *)
Definition CompareAndSwap (s : store) (key value prevValue : string)
  : store * (Response + error) :=
  match fault s with
  | Some e => (s, inr e)
  | None =>
      match nodes s !! key with
      | None => (s, inr (EtcdError EcodeKeyNotFound "Key not found"))
      | Some old =>
          if String.eqb (Value old) prevValue && negb (Dir old) then
            let n := mkNode key value false (index s + 1) [] in
            (commit s "compareAndSwap" n (<[key := n]> (nodes s)),
             inl (mkResponse "compareAndSwap" n (index s + 1)))
          else (s, inr (EtcdError EcodeTestFailed "Compare failed"))
      end
  end.

(** What a watch on [key] registered with [waitIndex] sends to its
    receiver, given the log [hist] of the store: every event on the key
    from that index on, oldest first. Index 0 asks for the changes after
    [now], the change index at registration. *)
Definition Watch (hist : list Response) (now : Z) (key : string)
           (waitIndex : Z) : list Response :=
  let from := if (waitIndex =? 0)%Z then now + 1 else waitIndex in
  List.filter (fun r => String.eqb (Key (RNode r)) key
                        && (from <=? ModifiedIndex (RNode r))%Z) hist.

End Etcd.

Export Etcd (Node, Response, Key, Value, Nodes, Action, RNode, EtcdIndex).

(** ** What bootstrap.go calls outside itself *)

(** [strconv.ParseUint s base bitSize], from Go's library. *)
Class GoLib : Type := { ParseUint : string -> Z -> Z -> Z + error }.

(** The key layout of package [etcdutil], which is not among the sources:
    the path builders are parameters of the development. [TaskSlotPath] is
    the key of one entry of the task directory. *)
Class EtcdUtil : Type :=
  { MakeTaskDirPath : string -> string;
    TaskSlotPath : string -> Z -> string;
    MakeChildMetaPath : string -> Z -> string;
    MakeParentMetaPath : string -> Z -> string }.

(** Modelled from the spec: [etcdutil.IsKeyNotFound] is not among the
    sources. It recognises the store's "key not found" answer, which the etcd
    client reports as an [EtcdError] with code 100. *)
Definition IsKeyNotFound (err : error) : bool :=
  match err with
  | EtcdError code _ => (code =? Etcd.EcodeKeyNotFound)%Z
  | errorString _ => false
  end.

(** Modelled from the spec: [etcdutil.TryOccupyTask] is not among the
    sources. It is the atomic conditional claim of a slot: an entry of the
    task directory holds the claiming node's address, or the empty string
    while unclaimed; the claim writes this node's address if and only if the
    entry is still unclaimed, and reports whether it did. *)
Definition TryOccupyTask `{EtcdUtil} (s : Etcd.store) (name : string)
           (taskID : Z) (connection : string) : Etcd.store * bool :=
  match Etcd.CompareAndSwap s (TaskSlotPath name taskID) connection "" with
  | (s', inl _) => (s', true)
  | (s', inr _) => (s', false)
  end.

(** ** framework/bootstrap.go: data *)

Inductive taskRole : Type := roleNone | roleParent | roleChild.

#[global] Instance taskRole_eq_dec : EqDecision taskRole.
Proof. solve_decision. Defined.

(** A channel as [make(chan T, n)] creates it: only its capacity matters
    here. *)
Record chan : Type := mkChan { cap : Z }.

Inductive Logger : Type := givenLogger | stdoutLogger.

(** The fields of the [framework] struct that bootstrap.go reads or writes;
    [ln] is the listener's address, [f.ln.Addr().String()]. The node is
    taken as set up: the listener is there, and the task builder and the
    topology, which [Start] calls, have been given with [SetTaskBuilder]
    and [SetTopology]. *)
Record framework : Type := mkFramework
  { name : string; etcdURLs : list string; ln : string;
    log : option Logger; taskID : Z; epoch : Z;
    epochChan : option chan; dataRespChan : option chan;
    stops : list chan }.

Definition NewBootStrap (jobName : string) (etcdURLs : list string)
           (ln : string) (logger : option Logger) : framework :=
  mkFramework jobName etcdURLs ln logger 0 0 None None [].

Definition with_log (l : option Logger) (f : framework) : framework :=
  mkFramework (name f) (etcdURLs f) (ln f) l (taskID f) (epoch f)
              (epochChan f) (dataRespChan f) (stops f).
Definition with_taskID (id : Z) (f : framework) : framework :=
  mkFramework (name f) (etcdURLs f) (ln f) (log f) id (epoch f)
              (epochChan f) (dataRespChan f) (stops f).
Definition with_epoch (e : Z) (f : framework) : framework :=
  mkFramework (name f) (etcdURLs f) (ln f) (log f) (taskID f) e
              (epochChan f) (dataRespChan f) (stops f).
Definition with_epochChan (c : option chan) (f : framework) : framework :=
  mkFramework (name f) (etcdURLs f) (ln f) (log f) (taskID f) (epoch f)
              c (dataRespChan f) (stops f).
Definition with_dataRespChan (c : option chan) (f : framework) : framework :=
  mkFramework (name f) (etcdURLs f) (ln f) (log f) (taskID f) (epoch f)
              (epochChan f) c (stops f).
Definition with_stops (l : list chan) (f : framework) : framework :=
  mkFramework (name f) (etcdURLs f) (ln f) (log f) (taskID f) (epoch f)
              (epochChan f) (dataRespChan f) l.

(** The two values the variable [taskCallback] of [watchAll] takes. *)
Inductive callback : Type := cbParentMetaReady | cbChildMetaReady.

(** The goroutines [Start] and [watchAll] launch. The receiver channel of a
    delivery goroutine is the one fed by the watch on [watchPath] from
    [watchIndex]; [resp] is the variable of that name it closes over, [None]
    for Go's [nil]. *)
Inductive goroutine : Type :=
| go_heartbeat
| go_detectAndReportFailures
| go_startHTTP
| go_dataResponseReceiver
| go_Watch (watchPath : string) (watchIndex : Z)
| go_deliver (taskCallback : callback) (taskID : Z) (watchPath : string)
             (watchIndex : Z) (resp : option Response).

(** What a run does that can be observed from outside the framework: calls
    into the task, the task builder and the topology, requests to the store,
    log lines (by their format string), goroutine launches, and the two ways
    the process dies. *)
Inductive event : Type :=
| Printf (format : string)
| Fatalf (format : string)
| Panic (msg : string)
| NewClient (urls : list string)
| EtcdGet (path : string) (sorted recursive : bool)
| EtcdTryOccupyTask (taskID : Z) (connection : string) (ok : bool)
| Standby
| GetTask (taskID : Z)
| SetTaskID (taskID : Z)
| GetParents (epoch : Z)
| GetChildren (epoch : Z)
| Init (taskID : Z)
| SetEpoch (epoch : Z)
| ParentMetaReady (parentID : Z) (meta : string)
| ChildMetaReady (childID : Z) (meta : string)
| GetAndWatchEpoch (name : string)
| Go (g : goroutine)
| HttpServe (addr : string)
| ReleaseResources.

(** The inputs of a run that come from outside bootstrap.go. *)
Record Env : Type := mkEnv
  { (** What [standby] returns, and the slot it obtains when it returns no
        error. *)
    standby_result : option error;
    standby_slot : Z;
    (** The two results of [etcdutil.GetAndWatchEpoch]. *)
    epoch_fetch : Z * option error;
    (** The values received from [f.epochChan], in order, until it is
        closed. *)
    epoch_updates : list Z;
    (** The topology, by task ID and epoch. *)
    parents : Z -> Z -> list Z;
    children : Z -> Z -> list Z;
    (** What the watch on a path from an index sends to its receiver. *)
    received : string -> Z -> list Response;
    (** The error [http.Serve] returns, if it returns. *)
    serve_result : option error }.

(** ** The monad of the main goroutine *)

Record state : Type := mkState
  { fw : framework; etcd : Etcd.store; trace : list event }.

(** [Exited] is [os.Exit] after [log.Fatalf]; [Panicked] an unrecovered
    [panic]. *)
Inductive outcome (A : Type) : Type :=
| Ret (a : A)
| Exited
| Panicked.
Arguments Ret {A} a.
Arguments Exited {A}.
Arguments Panicked {A}.

Definition M (A : Type) : Type := state -> outcome A * state.

#[global] Instance M_ret : MRet M := fun A a st => (Ret a, st).

#[global] Instance M_bind : MBind M := fun A B k m st =>
  match m st with
  | (Ret a, st') => k a st'
  | (Exited, st') => (Exited, st')
  | (Panicked, st') => (Panicked, st')
  end.

Definition get_fw : M framework := fun st => (Ret (fw st), st).

Definition set_fw (g : framework -> framework) : M unit := fun st =>
  (Ret tt, mkState (g (fw st)) (etcd st) (trace st)).

Definition record (e : event) (st : state) : state :=
  mkState (fw st) (etcd st) (trace st ++ [e]).

Definition emit (e : event) : M unit := fun st => (Ret tt, record e st).

Definition set_etcd (g : Etcd.store -> Etcd.store) : M unit := fun st =>
  (Ret tt, mkState (fw st) (g (etcd st)) (trace st)).

Definition log_Fatalf {A : Type} (format : string) : M A := fun st =>
  (Exited, record (Fatalf format) st).

Definition go_panic {A : Type} (msg : string) : M A := fun st =>
  (Panicked, record (Panic msg) st).

Definition etcdClient_Get (path : string) (sorted recursive : bool)
  : M (Response + error) := fun st =>
  (Ret (Etcd.Get (etcd st) path sorted recursive),
   record (EtcdGet path sorted recursive) st).

Definition etcdutil_TryOccupyTask `{EtcdUtil} (name : string) (taskID : Z)
           (connection : string) : M bool := fun st =>
  let '(s', ok) := TryOccupyTask (etcd st) name taskID connection in
  (Ret ok, mkState (fw st) s'
                   (trace st ++ [EtcdTryOccupyTask taskID connection ok])).

(** ** framework/bootstrap.go: functions *)

Section Bootstrap.

Context {golib : GoLib} {etcdutil : EtcdUtil}.
Variable env : Env.

(** The format of the warning [occupyTask] logs. *)
Definition corrupted_warning : string :=
  "WARN: taskID isn't integer, registration on etcd has been corrupted!".

(** The loop of [occupyTask] over [slots.Node.Nodes]. *)
Fixpoint occupy_slots (slots : list Node) : M (Z * option error) :=
  match slots with
  | [] => mret (0, Some (errorString "no unassigned task found"))
  | s :: rest =>
      let idstr := Base (Key s) in
      match ParseUint idstr 0 64 with
      | inr _ =>
          emit (Printf corrupted_warning) ;;
          occupy_slots rest
      | inl id =>
          f ← get_fw;
          ok ← etcdutil_TryOccupyTask (name f) id (ln f);
          if ok : bool then mret (id, None) else occupy_slots rest
      end
  end.

(** [occupyTask] grabs the first unassigned task and registers the node. *)
Definition occupyTask : M (Z * option error) :=
  f ← get_fw;
  slots ← etcdClient_Get (MakeTaskDirPath (name f)) true true;
  match slots with
  | inr err => mret (0, Some err)
  | inl slots => occupy_slots (Nodes (RNode slots))
  end.

(** One iteration of the loop of [watchAll]; its result is the [stop]
    channel stored in [stops[i]]. *)
Definition watch_neighbor (who : taskRole) (taskID : Z) : M chan :=
  f ← get_fw;
  let stop := mkChan 1 in
  '(watchPath, taskCallback) ←
    match who with
    | roleParent => mret (MakeChildMetaPath (name f) taskID, cbParentMetaReady)
    | roleChild => mret (MakeParentMetaPath (name f) taskID, cbChildMetaReady)
    | roleNone => go_panic "unimplemented"
    end;
  r ← etcdClient_Get watchPath false false;
  let resp := match r with inl resp => Some resp | inr _ => None end in
  watchIndex ←
    match r with
    | inr err =>
        if negb (IsKeyNotFound err)
        then log_Fatalf "etcd get(%s) failed: %v"
        else mret 1
    | inl resp => mret (add64 (EtcdIndex resp) 1)
    end;
  emit (Go (go_Watch watchPath watchIndex)) ;;
  emit (Go (go_deliver taskCallback taskID watchPath watchIndex resp)) ;;
  mret stop.

Fixpoint watch_neighbors (who : taskRole) (taskIDs : list Z) : M (list chan) :=
  match taskIDs with
  | [] => mret []
  | taskID :: rest =>
      stop ← watch_neighbor who taskID;
      stops ← watch_neighbors who rest;
      mret (stop :: stops)
  end.

Definition watchAll (who : taskRole) (taskIDs : list Z) : M unit :=
  stops' ← watch_neighbors who taskIDs;
  set_fw (fun f => with_stops (stops f ++ stops') f).

(** Modelled from the spec: [standby] is not among the sources. It is the
    fallback of a node that found no free slot: it either obtains a slot or
    reports that it cannot, and it calls nothing of the task. Which of the
    two it does, and the slot it obtains, are inputs of the run. A slot
    obtained is held as a claimed one is: [f.taskID] is its ID and its
    entry in the store carries the node's address. *)
Definition standby : M (option error) :=
  emit Standby ;;
  match standby_result env with
  | Some err => mret (Some err)
  | None =>
      f ← get_fw;
      set_fw (with_taskID (standby_slot env)) ;;
      set_etcd (fun s => Etcd.Set_ s (TaskSlotPath (name f) (standby_slot env))
                                   (ln f)) ;;
      mret None
  end.

(** Modelled from the spec: [etcdutil.GetAndWatchEpoch] is not among the
    sources. It fetches the current epoch and starts the watch that pushes
    every later value onto the channel it is given. Its two results are
    inputs of the run, and so is what the channel yields. *)
Definition etcdutil_GetAndWatchEpoch (name : string) : M (Z * option error) :=
  emit (GetAndWatchEpoch name) ;; mret (epoch_fetch env).

(** The loop [for f.epoch = range f.epochChan]. *)
Fixpoint epoch_loop (updates : list Z) : M unit :=
  match updates with
  | [] => mret tt
  | e :: rest =>
      set_fw (with_epoch e) ;;
      f ← get_fw;
      emit (SetEpoch (epoch f)) ;;
      epoch_loop rest
  end.

Definition Start : M unit :=
  f ← get_fw;
  (if log f is None then set_fw (with_log (Some stdoutLogger)) else mret tt) ;;
  emit (NewClient (etcdURLs f)) ;;
  '(id, err) ← occupyTask;
  set_fw (with_taskID id) ;;
  match err with
  | Some _ =>
      err ← standby;
      match err with
      | Some _ => log_Fatalf "occupyTask failed: %v"
      | None => mret tt
      end
  | None => mret tt
  end ;;
  f ← get_fw;
  emit (GetTask (taskID f)) ;;
  emit (SetTaskID (taskID f)) ;;
  emit (Init (taskID f)) ;;
  set_fw (with_epochChan (Some (mkChan 1))) ;;
  '(ep, err) ← etcdutil_GetAndWatchEpoch (name f);
  set_fw (with_epoch ep) ;;
  match err with
  | Some _ => log_Fatalf "WatchEpoch failed: %v"
  | None => mret tt
  end ;;
  emit (Go go_heartbeat) ;;
  emit (Go go_detectAndReportFailures) ;;
  f ← get_fw;
  emit (GetParents (epoch f)) ;;
  watchAll roleParent (parents env (taskID f) (epoch f)) ;;
  emit (GetChildren (epoch f)) ;;
  watchAll roleChild (children env (taskID f) (epoch f)) ;;
  emit (Go go_startHTTP) ;;
  set_fw (with_dataRespChan (Some (mkChan 100))) ;;
  emit (Go go_dataResponseReceiver) ;;
  emit (Printf "Start the work, task: %d\n") ;;
  f ← get_fw;
  emit (SetEpoch (epoch f)) ;;
  epoch_loop (epoch_updates env) ;;
  emit ReleaseResources.

(** *** The goroutines *)

Definition call (cb : callback) (taskID : Z) (meta : string) : event :=
  match cb with
  | cbParentMetaReady => ParentMetaReady taskID meta
  | cbChildMetaReady => ChildMetaReady taskID meta
  end.

(** The loop [for resp := range receiver] of the delivery goroutine. *)
Fixpoint deliver_loop (cb : callback) (taskID : Z) (receiver : list Response)
  : list event :=
  match receiver with
  | [] => []
  | resp :: rest =>
      if negb (String.eqb (Action resp) "set")
      then deliver_loop cb taskID rest
      else Printf "task:" :: call cb taskID (Value (RNode resp))
                  :: deliver_loop cb taskID rest
  end.

(** The function literal launched at the end of each iteration of
    [watchAll]. *)
Definition deliver (cb : callback) (taskID : Z) (resp : option Response)
           (receiver : list Response) : list event :=
  match resp with
  | Some r => [Printf "hehe task:"; call cb taskID (Value (RNode r))]
  | None => []
  end ++ deliver_loop cb taskID receiver.

Definition startHTTP (f : framework) : list event :=
  [Printf "serving http on %s"; HttpServe (ln f)]
    ++ match serve_result env with
       | Some _ => [Fatalf "http.Serve() returns error: %v\n"]
       | None => []
       end.

(** Modelled from the spec: [heartbeat] is not among the sources. It
    refreshes this node's liveness marker on a fixed interval and calls
    nothing of the task; none of its steps is an event of the traces
    here. *)
Definition heartbeat : list event := [].

(** Modelled from the spec: [detectAndReportFailures] is not among the
    sources. It watches the liveness markers of the peers and reports their
    expiry; it calls nothing of the task. *)
Definition detectAndReportFailures : list event := [].

(** Modelled from the spec: [dataResponseReceiver] is not among the
    sources. It forwards data responses to the task's data callbacks, which
    are not among the events traced here. *)
Definition dataResponseReceiver : list event := [].

(** What each goroutine does. The etcd client's [Watch] only feeds the
    receiver channel of its delivery goroutine. *)
Definition body (f : framework) (g : goroutine) : list event :=
  match g with
  | go_heartbeat => heartbeat
  | go_detectAndReportFailures => detectAndReportFailures
  | go_dataResponseReceiver => dataResponseReceiver
  | go_Watch _ _ => []
  | go_startHTTP => startHTTP f
  | go_deliver cb taskID watchPath watchIndex resp =>
      deliver cb taskID resp (received env watchPath watchIndex)
  end.

(** *** Runs of the whole process

    A configuration is what the main goroutine has left to do and what each
    launched goroutine has left to do; a step takes the next event of any
    one of them. [log.Fatalf] and [panic] end the process, whoever calls. *)

Definition is_exit (e : event) : bool :=
  match e with
  | Fatalf _ | Panic _ => true
  | _ => false
  end.

Definition launched (f : framework) (e : event) : list (list event) :=
  match e with
  | Go g => [body f g]
  | _ => []
  end.

(** A configuration: what the main goroutine has left to do, and what each
    launched goroutine has left to do. *)
Definition config : Type := list event * list (list event).

Definition after (e : event) (c : config) : config :=
  if is_exit e then ([], []) else c.

Inductive run (f : framework) : config -> list event -> config -> Prop :=
| run_pause c : run f c [] c
| run_main e main pool tr c' :
    run f (after e (main, (pool ++ launched f e)%list)) tr c' ->
    run f (e :: main, pool) (e :: tr) c'
| run_goroutine e g p1 p2 main tr c' :
    run f (after e (main, (p1 ++ g :: p2)%list)) tr c' ->
    run f (main, (p1 ++ (e :: g) :: p2)%list) (e :: tr) c'.

(** The node starts with an empty trace. *)
Definition boot (f : framework) (s : Etcd.store) : state := mkState f s [].

(** What the main goroutine of [Start] does, from boot. *)
Definition main_events (f : framework) (s : Etcd.store) : list event :=
  trace (snd (Start (boot f s))).

(** [tr] is what the process has done so far in some run of [Start], and
    [c] what is left. *)
Definition Start_run (f : framework) (s : Etcd.store) (tr : list event)
           (c : config) : Prop :=
  run f (main_events f s, []) tr c.

End Bootstrap.

(** ** Reading traces *)

(** The epochs handed to [Task.SetEpoch], in order. *)
Definition epochs (tr : list event) : list Z :=
  omap (fun e => match e with SetEpoch ep => Some ep | _ => None end) tr.

Definition is_meta_callback (e : event) : bool :=
  match e with
  | ParentMetaReady _ _ | ChildMetaReady _ _ => true
  | _ => false
  end.

(** The calls of [ParentMetaReady] and [ChildMetaReady], in order. *)
Definition callbacks (tr : list event) : list event :=
  List.filter is_meta_callback tr.

(** The metadata values handed to the task for one neighbour. *)
Definition metas (cb : callback) (taskID : Z) (tr : list event) : list string :=
  omap (fun e =>
          match cb, e with
          | cbParentMetaReady, ParentMetaReady id m
          | cbChildMetaReady, ChildMetaReady id m =>
              if (id =? taskID)%Z then Some m else None
          | _, _ => None
          end) tr.

(** The claims attempted, with their results. *)
Definition claims (tr : list event) : list (Z * bool) :=
  omap (fun e => match e with
                 | EtcdTryOccupyTask id _ ok => Some (id, ok)
                 | _ => None
                 end) tr.

Definition is_warning (e : event) : bool :=
  match e with
  | Printf fmt => String.eqb fmt corrupted_warning
  | _ => false
  end.

(** The watches started, by path and index. *)
Definition watches (tr : list event) : list (string * Z) :=
  omap (fun e => match e with
                 | Go (go_Watch p i) => Some (p, i)
                 | _ => None
                 end) tr.

(** The delivery goroutines launched. *)
Definition deliveries (tr : list event) : list goroutine :=
  omap (fun e => match e with
                 | Go (go_deliver cb id p i r) => Some (go_deliver cb id p i r)
                 | _ => None
                 end) tr.

Definition is_Init (e : event) : bool :=
  match e with Init _ => true | _ => false end.

(** Slot acquisition: everything [Start] does up to and including
    [occupyTask] and [standby]. *)
Definition is_acquisition (e : event) : bool :=
  match e with
  | NewClient _ | EtcdGet _ true true | EtcdTryOccupyTask _ _ _
  | Standby => true
  | Printf _ => is_warning e
  | _ => false
  end.

(** What must come after [Task.Init]: the epoch fetch, the neighbour
    watches with their baseline reads, the data server, and the task's epoch
    and metadata callbacks. *)
Definition needs_Init (e : event) : bool :=
  match e with
  | GetAndWatchEpoch _ => true
  | EtcdGet _ false false => true
  | Go (go_Watch _ _) | Go (go_deliver _ _ _ _ _) | Go go_startHTTP => true
  | HttpServe _ => true
  | SetEpoch _ | ParentMetaReady _ _ | ChildMetaReady _ _ => true
  | _ => false
  end.

(** A sequence of epochs never goes down. *)
Definition non_decreasing (l : list Z) : Prop := StronglySorted Z.le l.

(** The key a neighbour watch is on, and the callback it feeds. *)
Definition watch_path `{EtcdUtil} (who : taskRole) (name : string) (taskID : Z)
  : string :=
  match who with
  | roleChild => MakeParentMetaPath name taskID
  | _ => MakeChildMetaPath name taskID
  end.

Definition watch_callback (who : taskRole) : callback :=
  match who with
  | roleChild => cbChildMetaReady
  | _ => cbParentMetaReady
  end.

(** The baseline of a neighbour: the response of the read, if it
    succeeded. *)
Definition baseline (r : Response + error) : option Response :=
  match r with inl resp => Some resp | inr _ => None end.

(** Whether the key of a directory entry parses as a task ID, and the IDs
    of those that do, in listed order. *)
Definition parse_id `{GoLib} (s : Node) : option Z :=
  match ParseUint (Base (Key s)) 0 64 with
  | inl id => Some id
  | inr _ => None
  end.

Definition is_numeric `{GoLib} (s : Node) : bool :=
  match parse_id s with Some _ => true | None => false end.

Definition numeric_ids `{GoLib} (slots : list Node) : list Z :=
  omap parse_id slots.

Definition failed (ids : list Z) : list (Z * bool) :=
  map (fun i => (i, false)) ids.

Definition no_unassigned_task : error :=
  errorString "no unassigned task found".

(** The baseline read of a neighbour's key, and whether its answer is an
    error other than "key not found". *)
Definition read_neighbor `{EtcdUtil} (st : state) (who : taskRole) (taskID : Z)
  : Response + error :=
  Etcd.Get (etcd st) (watch_path who (name (fw st)) taskID) false false.

Definition is_fatal_answer (r : Response + error) : bool :=
  match r with
  | inr err => negb (IsKeyNotFound err)
  | inl _ => false
  end.

(** The events whose action is a write. *)
Definition writes (receiver : list Response) : list Response :=
  List.filter (fun r => String.eqb (Action r) "set") receiver.

(** What the set-up of the neighbour watches does. *)
Definition is_watch_setup (e : event) : bool :=
  match e with
  | EtcdGet _ false false => true
  | Go (go_Watch _ _) | Go (go_deliver _ _ _ _ _) => true
  | Fatalf _ | Panic _ => true
  | _ => false
  end.

(** What may follow [Task.Init]: anything but a second [Init] or a step of
    slot acquisition. *)
Definition after_Init (e : event) : bool :=
  negb (is_Init e) && negb (is_acquisition e).

(** What may precede [Task.Init]: nothing that needs it, no goroutine
    launch, and no [Init]. *)
Definition before_Init (e : event) : bool :=
  negb (is_Init e) && negb (needs_Init e)
  && match e with Go _ => false | _ => true end.

Definition occupy_failed : event := Fatalf "occupyTask failed: %v".

(** What the loop of [occupyTask] amounts to: either some parseable entry
    is claimed, after every parseable entry before it was refused, or every
    parseable entry is refused. *)
Definition occupied `{EtcdUtil} (st : state) (ids : list Z) (r : outcome (Z * option error))
           (st' : state) (evs : list event) : Prop :=
  let claim i := TryOccupyTask (etcd st) (name (fw st)) i (ln (fw st)) in
  (exists pre id post,
      ids = (pre ++ id :: post)%list
      /\ r = Ret (id, None)
      /\ claims evs = (failed pre ++ [(id, true)])%list
      /\ Forall (fun i => snd (claim i) = false) pre
      /\ claim id = (etcd st', true))
  \/ (r = Ret (0, Some no_unassigned_task)
      /\ claims evs = failed ids
      /\ Forall (fun i => snd (claim i) = false) ids
      /\ etcd st' = etcd st).

(** What one iteration of the loop of [watchAll] adds to the trace. *)
Definition neighbor_events `{EtcdUtil} (st : state) (who : taskRole) (taskID : Z)
  : list event :=
  let p := watch_path who (name (fw st)) taskID in
  let r := read_neighbor st who taskID in
  let i := match r with inl resp => add64 (EtcdIndex resp) 1 | inr _ => 1 end in
  EtcdGet p false false
    :: if is_fatal_answer r then [Fatalf "etcd get(%s) failed: %v"]
       else [Go (go_Watch p i);
             Go (go_deliver (watch_callback who) taskID p i (baseline r))].

(** The delivery goroutine of a neighbour: it makes the callback of the
    role for that neighbour, on the events of the watch on the neighbour's
    key from the index the read dictates, over the answer of the read. *)
Definition neighbor_delivery `{EtcdUtil} (st : state) (who : taskRole)
           (taskID : Z) : goroutine :=
  let p := watch_path who (name (fw st)) taskID in
  let r := read_neighbor st who taskID in
  let i := match r with inl resp => add64 (EtcdIndex resp) 1 | inr _ => 1 end in
  go_deliver (watch_callback who) taskID p i (baseline r).

(** The index every started watch carries. *)
Definition index_as_read (st : state) (w : string * Z) : Prop :=
  match Etcd.Get (etcd st) (fst w) false false with
  | inl resp => snd w = add64 (EtcdIndex resp) 1
  | inr err => IsKeyNotFound err = true /\ snd w = 1
  end.

(** ** Sequences of calls on a checkpoint file *)

(** A run of [Read] calls into slices of the given lengths, in order; the
    result carries the bytes the calls copied out, concatenated. *)
Fixpoint Reads (s : Store.S3) (f : Store.S3File) (ns : list nat)
  : Store.S3 * Store.S3File * list byte :=
  match ns with
  | [] => (s, f, [])
  | n :: ns' =>
      let '(s', f', (data, _, _)) := Store.Read s f n in
      let '(s'', f'', rest) := Reads s' f' ns' in
      (s'', f'', (data ++ rest)%list)
  end.

(** The number of bytes asked for by a run of reads. *)
Definition asked (ns : list nat) : nat := foldr Nat.add 0%nat ns.

(** ** What a watch set-up may launch *)

(** The events of a watch set-up that went through for callback [cb] and
    the neighbours [ids]: baseline reads, watches, and delivery goroutines
    for that callback and one of those neighbours. *)
Definition launches_for (cb : callback) (ids : list Z) (e : event) : Prop :=
  match e with
  | EtcdGet _ false false => True
  | Go (go_Watch _ _) => True
  | Go (go_deliver cb' id _ _ _) => cb' = cb /\ In id ids
  | _ => False
  end.

(** The three fatal log lines of the main goroutine. *)
Definition is_main_fatal (e : event) : bool :=
  match e with
  | Fatalf fmt =>
      String.eqb fmt "occupyTask failed: %v"
      || String.eqb fmt "WatchEpoch failed: %v"
      || String.eqb fmt "etcd get(%s) failed: %v"
  | _ => false
  end.

(** A task initialised as [id] under the topology of epoch [e0] is told
    about neighbours only: what a trace may contain. *)
Definition about_neighbours (env : Env) (id e0 : Z) (e : event) : Prop :=
  match e with
  | Init id' => id' = id
  | Go (go_deliver cbParentMetaReady n _ _ _) => In n (parents env id e0)
  | Go (go_deliver cbChildMetaReady n _ _ _) => In n (children env id e0)
  | ParentMetaReady n _ => In n (parents env id e0)
  | ChildMetaReady n _ => In n (children env id e0)
  | _ => True
  end.

(** The stretches of the main goroutine's trace between slot acquisition
    and the epoch loop. *)
Definition init_events (f : framework) (id : Z) : list event :=
  [GetTask id; SetTaskID id; Init id; GetAndWatchEpoch (name f)].

Definition liveness_events (e0 : Z) : list event :=
  [Go go_heartbeat; Go go_detectAndReportFailures; GetParents e0].

Definition serving_events (e0 : Z) : list event :=
  [Go go_startHTTP; Go go_dataResponseReceiver;
   Printf "Start the work, task: %d\n"; SetEpoch e0].

Definition get_failed : event := Fatalf "etcd get(%s) failed: %v".
Definition epoch_failed : event := Fatalf "WatchEpoch failed: %v".

(** What the main goroutine does before it starts the data server: no exit,
    no release of resources, no data server, no call of [SetEpoch]. *)
Definition before_serving (e : event) : bool :=
  match e with
  | Fatalf _ | Panic _ | ReleaseResources | Go go_startHTTP
  | HttpServe _ | SetEpoch _ => false
  | _ => true
  end.

(** What it does before it releases its resources. *)
Definition before_release (e : event) : bool :=
  match e with
  | Fatalf _ | Panic _ | ReleaseResources => false
  | _ => true
  end.

(** What it does when the epoch cannot be fetched: nothing is launched, no
    neighbour is read, no epoch is delivered. *)
Definition nothing_started (e : event) : bool :=
  match e with
  | Go _ | EtcdGet _ false false | SetEpoch _ | ReleaseResources => false
  | _ => true
  end.

(** ** The task a node runs as *)

(** What slot acquisition settled, read off its events: the ID is that of
    the last claim made, the one accepted, after refused claims only; or
    every claim made was refused, [standby] was called, and the ID is that
    of the slot [standby] obtained. *)
Definition runs_as (env : Env) (acq : list event) (id : Z) : Prop :=
  (exists refused, claims acq = (failed refused ++ [(id, true)])%list)
  \/ (id = standby_slot env
      /\ (exists refused, claims acq = failed refused)
      /\ In Standby acq).

(** Past slot acquisition: no claim, no [standby], no call of
    [Task.Init]. *)
Definition past_acquisition (e : event) : bool :=
  match e with
  | EtcdTryOccupyTask _ _ _ | Standby | Init _ => false
  | _ => true
  end.

(** ** What neighbours do to the store after the node has read *)

Inductive change : Type :=
| SetKey (key value : string)
| DeleteKey (key : string).

Definition apply_change (s : Etcd.store) (c : change) : Etcd.store :=
  match c with
  | SetKey k v => Etcd.Set_ s k v
  | DeleteKey k => Etcd.Delete s k
  end.

(** The store after the changes [cs], made in order. *)
Definition later (s : Etcd.store) (cs : list change) : Etcd.store :=
  fold_left apply_change cs s.

(** The values written to [key] by the changes, in order. *)
Definition later_writes (key : string) (cs : list change) : list string :=
  omap (fun c => match c with
                 | SetKey k v => if String.eqb k key then Some v else None
                 | DeleteKey _ => None
                 end) cs.

(** No event of the log is newer than the store's change index. *)
Definition well_indexed (s : Etcd.store) : Prop :=
  Forall (fun r => Etcd.ModifiedIndex (RNode r) <= Etcd.index s)
         (Etcd.history s).

Definition on_key (key : string) (r : Response) : bool :=
  String.eqb (Key (RNode r)) key.

(** ** A concrete setting for the examples *)

Definition digit_of (c : ascii) : option Z :=
  let n := Z.of_nat (nat_of_ascii c) in
  if (48 <=? n)%Z && (n <=? 57)%Z then Some (n - 48) else None.

Fixpoint parse_digits (acc : Z) (l : list ascii) : option Z :=
  match l with
  | [] => Some acc
  | c :: l' =>
      match digit_of c with
      | Some d => parse_digits (acc * 10 + d) l'
      | None => None
      end
  end.

(** The decimal numerals of [strconv.ParseUint s 0 64]: digits only, no
    leading zero, at most 2^64-1. Go's parser also reads binary, octal and
    hexadecimal numerals, which the examples do not use. *)
Definition ParseUint_decimal (s : string) (base bitSize : Z) : Z + error :=
  match list_ascii_of_string s with
  | [] => inr (errorString "invalid syntax")
  | "0"%char :: _ :: _ => inr (errorString "invalid syntax")
  | l =>
      match parse_digits 0 l with
      | Some n =>
          if (n <=? uint64_max)%Z then inl n
          else inr (errorString "value out of range")
      | None => inr (errorString "invalid syntax")
      end
  end.

Definition decimal_lib : GoLib := {| ParseUint := ParseUint_decimal |}.

(** A key layout: slots under [/<job>/tasks], metadata under
    [/<job>/parentMeta] and [/<job>/childMeta]. *)
Definition example_layout : EtcdUtil :=
  {| MakeTaskDirPath name := "/" ++ name ++ "/tasks";
     TaskSlotPath name id := "/" ++ name ++ "/tasks/" ++ pretty id;
     MakeChildMetaPath name id := "/" ++ name ++ "/childMeta/" ++ pretty id;
     MakeParentMetaPath name id := "/" ++ name ++ "/parentMeta/" ++ pretty id |}.

Definition empty_store : Etcd.store := Etcd.mkStore 0 ∅ [] None.

(** A job with two free slots, as the controller lays it out. *)
Definition two_slots : Etcd.store :=
  Etcd.Set_ (Etcd.Set_ (Etcd.SetDir empty_store "/job/tasks")
                       "/job/tasks/0" "")
            "/job/tasks/1" "".

(** The same job with a stray entry in the task directory and slot 0
    taken. *)
Definition corrupted_slots : Etcd.store :=
  Etcd.Set_ (Etcd.Set_ two_slots "/job/tasks/0" "10.0.0.1:2000")
            "/job/tasks/.lock" "x".

Definition node : framework :=
  NewBootStrap "job" ["http://127.0.0.1:4001"] "10.0.0.2:2000" (Some givenLogger).

(** A line of three tasks: task [i] has parent [i-1] and child [i+1]. When
    [standby] does not fail, the slot it obtains is slot 1. *)
Definition line_env (fetch : Z * option error) (updates : list Z)
           (standby : option error) (recv : string -> Z -> list Response)
  : Env :=
  {| standby_result := standby;
     standby_slot := 1;
     epoch_fetch := fetch;
     epoch_updates := updates;
     parents id _ := if (0 <? id)%Z then [id - 1] else [];
     children id _ := if (id <? 2)%Z then [id + 1] else [];
     received := recv;
     serve_result := None |}.

(** No neighbour ever writes. *)
Definition quiet : string -> Z -> list Response := fun _ _ => [].

(** The controller publishes epoch 2 and then epoch 1. *)
Definition env_backwards : Env := line_env (2, None) [1] None quiet.

(** Both slots are taken, and [standby] fails. *)
Definition all_taken : Etcd.store :=
  Etcd.Set_ (Etcd.Set_ two_slots "/job/tasks/0" "10.0.0.1:2000")
            "/job/tasks/1" "10.0.0.3:2000".

Definition env_standby_fails : Env :=
  line_env (0, None) [] (Some (errorString "unimplemented")) quiet.

(** The node takes slot 0 of [two_slots]; its child, task 1, then publishes
    the same metadata twice. The watch replays the log of the store. *)
Definition claimed : Etcd.store :=
  fst (@TryOccupyTask example_layout two_slots "job" 0 "10.0.0.2:2000").

Definition written_twice : Etcd.store :=
  Etcd.Set_ (Etcd.Set_ claimed "/job/parentMeta/1" "ready")
            "/job/parentMeta/1" "ready".

Definition env_twice : Env :=
  line_env (0, None) [] None
           (Etcd.Watch (Etcd.history written_twice) (Etcd.index claimed)).

(** The cluster answers every request of this node with an internal
    error. *)
Definition broken_store : Etcd.store :=
  Etcd.mkStore 3 ∅ [] (Some (EtcdError 300 "Raft Internal Error")).

(** A controller that only ever raises the epoch. *)
Definition env_forward : Env := line_env (0, None) [1; 2] None quiet.

(** What the goroutines of the node that took slot 0 have left to do once
    its main goroutine is through, when no neighbour writes: only the data
    server has something to show. *)
Definition idle_pool : list (list event) :=
  [[]; []; []; [];
   [Printf "serving http on %s"; HttpServe "10.0.0.2:2000"]; []].

(** Task 0 has published its metadata before the node looks. *)
Definition published : Etcd.store :=
  Etcd.Set_ two_slots "/job/childMeta/0" "meta0".

(** A store whose change index has reached the last [uint64]. *)
Definition last_index : Etcd.store :=
  Etcd.mkStore uint64_max
               (<["/job/childMeta/0" :=
                    Etcd.mkNode "/job/childMeta/0" "meta0" false 7 []]> ∅)
               [] None.

(** Events as a watch sends them. *)
Definition event_on (action key value : string) (i : Z) : Response :=
  Etcd.mkResponse action (Etcd.mkNode key value false i []) i.

(** A checkpoint file opened on an object holding two bytes. *)
Definition checkpoint : Store.S3File :=
  Store.mkS3File "bucket" "ckpt" (Store.NewBuffer [x61; x62]).

Definition bucket_before : Store.S3 :=
  Store.mkS3 (<[("bucket", "ckpt") := [x61; x62]]> ∅) [] true.

(** The epoch of the job cannot be fetched. *)
Definition env_no_epoch : Env :=
  line_env (0, Some (errorString "epoch unavailable")) [] None quiet.

(** What the neighbours do after the node has read task 0's metadata in
    [published]: a new value, a write to another key, a deletion, and a
    value again. *)
Definition neighbour_changes : list change :=
  [SetKey "/job/childMeta/0" "meta1"; SetKey "/job/tasks/1" "10.0.0.3:2000";
   DeleteKey "/job/childMeta/0"; SetKey "/job/childMeta/0" "meta2"].

(** What the read of task 0's metadata in [published] answers. *)
Definition baseline_read : Response :=
  Etcd.mkResponse "get" (Etcd.mkNode "/job/childMeta/0" "meta0" false 4 []) 4.

(** * Properties *)

(** ** The checkpoint file on S3 *)

Section StoreFacts.

Import Store.

Lemma Bytes_empty (b : Buffer) : Len b = 0%nat -> Bytes b = [].
Proof.
  unfold Len, Bytes. intros H. apply drop_ge. lia.
Qed.

Lemma Buffer_Write_Bytes (b : Buffer) (p : list byte) :
  Bytes (fst (Buffer_Write b p)) = (Bytes b ++ p)%list.
Proof.
  unfold Buffer_Write. cbn [fst].
  destruct (Nat.eqb_spec (Len b) 0) as [Hz | Hnz]; cbn [andb].
  - rewrite (Bytes_empty b Hz).
    destruct (Nat.eqb_spec (off b) 0) as [Ho | Ho]; cbn [negb].
    + unfold Bytes; cbn. unfold Len in Hz. rewrite Ho in *.
      assert (buf b = []) as -> by (apply length_zero_iff_nil; lia).
      reflexivity.
    + reflexivity.
  - unfold Bytes; cbn. unfold Len in Hnz.
    rewrite drop_app_le by lia. reflexivity.
Qed.

Lemma Write_run (s : S3) (f : S3File) (p : list byte) :
  Write s f p =
    (s, mkS3File (Bucket f) (keyPath f) (fst (Buffer_Write (fbuf f) p)),
     (length p, None)).
Proof. reflexivity. Qed.

Lemma Writes_run (ps : list (list byte)) : forall (s : S3) (f : S3File),
  fst (Writes s f ps) = s
  /\ Bucket (snd (Writes s f ps)) = Bucket f
  /\ keyPath (snd (Writes s f ps)) = keyPath f
  /\ Bytes (fbuf (snd (Writes s f ps))) = (Bytes (fbuf f) ++ concat ps)%list.
Proof.
  induction ps as [| p ps IH]; intros s f; cbn [Writes concat].
  - rewrite app_nil_r. auto.
  - rewrite Write_run.
    destruct (IH s (mkS3File (Bucket f) (keyPath f)
                             (fst (Buffer_Write (fbuf f) p))))
      as (Hs & Hb & Hk & Hbytes).
    rewrite Hs, Hb, Hk, Hbytes. cbn [Bucket keyPath fbuf].
    rewrite Buffer_Write_Bytes, <- app_assoc. auto.
Qed.

(** C10. Whatever sequence of [Write] calls is made on an [S3File], the
    object store is left exactly as it was (no object changes, no request is
    sent) and the bytes are appended to the buffer; [Sync] then sends one put
    request, to the file's bucket and key, carrying the whole buffer: what it
    held before the writes followed by every byte written. When the store
    answers, the object under the key is that content; when it does not, the
    objects are unchanged and [Sync] returns the error. *)
Theorem Write_buffers_Sync_uploads (s : Store.S3) (f : Store.S3File)
        (ps : list (list byte)) :
  let s1 := fst (Writes s f ps) in
  let f1 := snd (Writes s f ps) in
  let contents := (Bytes (fbuf f) ++ concat ps)%list in
  let '(s2, f2, err) := Sync s1 f1 in
  s1 = s
  /\ Bytes (fbuf f1) = contents
  /\ puts s2 = (puts s ++ [mkPut (Bucket f) (keyPath f) contents
                                 "binary" BucketOwnerFull])%list
  /\ f2 = f1
  /\ if online s
     then err = None /\ objects s2 !! (Bucket f, keyPath f) = Some contents
     else err <> None /\ objects s2 = objects s.
Proof.
  destruct (Writes_run ps s f) as (Hs & Hb & Hk & Hbytes).
  cbn zeta. unfold Sync, Bucket_Put.
  rewrite Hs, Hb, Hk, Hbytes.
  destruct (online s); cbn.
  - repeat split; auto; apply lookup_insert_eq.
  - repeat split; auto; discriminate.
Qed.

End StoreFacts.

(** Splits a conjunction into its parts and closes the immediate ones. *)
Ltac conj :=
  repeat match goal with |- _ /\ _ => split end;
  try solve [reflexivity | assumption | auto
             | match goal with
               | |- Forall _ _ => repeat (constructor; auto)
               end].

(** ** The monad *)

Lemma run_bind {A B : Type} (m : M A) (k : A -> M B) (st : state) :
  (m ≫= k) st =
    match m st with
    | (Ret a, st') => k a st'
    | (Exited, st') => (Exited, st')
    | (Panicked, st') => (Panicked, st')
    end.
Proof. reflexivity. Qed.

Lemma run_ret {A B : Type} (a : A) (k : A -> M B) (st : state) :
  (mret a ≫= k) st = k a st.
Proof. reflexivity. Qed.

Lemma run_get_fw {B : Type} (k : framework -> M B) (st : state) :
  (get_fw ≫= k) st = k (fw st) st.
Proof. reflexivity. Qed.

Lemma run_set_fw {B : Type} (g : framework -> framework) (k : unit -> M B)
      (st : state) :
  (set_fw g ≫= k) st = k tt (mkState (g (fw st)) (etcd st) (trace st)).
Proof. reflexivity. Qed.

Lemma run_emit {B : Type} (e : event) (k : unit -> M B) (st : state) :
  (emit e ≫= k) st = k tt (record e st).
Proof. reflexivity. Qed.

Lemma run_Get {B : Type} (path : string) (sorted recursive : bool)
      (k : Response + error -> M B) (st : state) :
  (etcdClient_Get path sorted recursive ≫= k) st =
    k (Etcd.Get (etcd st) path sorted recursive)
      (record (EtcdGet path sorted recursive) st).
Proof. reflexivity. Qed.

Lemma run_TryOccupyTask `{EtcdUtil} {B : Type} (n : string) (id : Z)
      (conn : string) (k : bool -> M B) (st : state) :
  (etcdutil_TryOccupyTask n id conn ≫= k) st =
    k (snd (TryOccupyTask (etcd st) n id conn))
      (mkState (fw st) (fst (TryOccupyTask (etcd st) n id conn))
               (trace st ++ [EtcdTryOccupyTask id conn
                               (snd (TryOccupyTask (etcd st) n id conn))])).
Proof.
  rewrite run_bind. unfold etcdutil_TryOccupyTask.
  destruct (TryOccupyTask (etcd st) n id conn). reflexivity.
Qed.

Lemma run_Fatalf {A B : Type} (format : string) (k : A -> M B) (st : state) :
  (log_Fatalf format ≫= k) st = (Exited, record (Fatalf format) st).
Proof. reflexivity. Qed.

Lemma run_panic {A B : Type} (msg : string) (k : A -> M B) (st : state) :
  (go_panic msg ≫= k) st = (Panicked, record (Panic msg) st).
Proof. reflexivity. Qed.

Lemma run_mret {A : Type} (a : A) (st : state) :
  (mret a : M A) st = (Ret a, st).
Proof. reflexivity. Qed.

(** One step of the main goroutine. *)
Ltac mstep :=
  repeat (progress (rewrite ?run_ret, ?run_get_fw, ?run_set_fw, ?run_emit,
                      ?run_Get, ?run_Fatalf, ?run_panic, ?run_mret;
                    cbn beta iota zeta; cbn [fw etcd trace record])).

Lemma run_Fatalf0 {A : Type} (format : string) (st : state) :
  (log_Fatalf format : M A) st = (Exited, record (Fatalf format) st).
Proof. reflexivity. Qed.

Ltac mstep_in H :=
  repeat (progress (rewrite ?run_ret, ?run_get_fw, ?run_set_fw, ?run_emit,
                      ?run_Get, ?run_Fatalf, ?run_panic, ?run_mret,
                      ?run_Fatalf0 in H;
                    cbn beta iota zeta in H;
                    cbn [fw etcd trace record taskID name epoch epochChan
                         with_taskID with_epoch with_epochChan
                         with_dataRespChan with_stops with_log] in H)).

(** Brings a trace built by successive [record]s into a flat form. *)
Ltac flat_trace :=
  cbn [trace record fw etcd fst snd]; rewrite <- ?app_assoc; cbn [app].

Ltac forall_split :=
  repeat match goal with
         | |- Forall _ (_ :: _) => constructor
         | |- Forall _ (_ ++ _) => apply Forall_app; split
         | |- Forall _ [] => constructor
         end.

Lemma trace_record (e : event) (st : state) :
  trace (record e st) = (trace st ++ [e])%list.
Proof. reflexivity. Qed.

Lemma claims_app (a b : list event) :
  claims (a ++ b) = (claims a ++ claims b)%list.
Proof. apply omap_app. Qed.

Lemma epochs_app (a b : list event) :
  epochs (a ++ b) = (epochs a ++ epochs b)%list.
Proof. apply omap_app. Qed.

Lemma epochs_SetEpoch (l : list Z) : epochs (map SetEpoch l) = l.
Proof.
  induction l as [| e l IH]; [reflexivity |].
  cbn [map]. change (epochs (SetEpoch e :: map SetEpoch l))
    with (e :: epochs (map SetEpoch l)).
  rewrite IH. reflexivity.
Qed.

Lemma watch_setup_after_Init (evs : list event) :
  Forall (fun e => is_watch_setup e = true) evs ->
  Forall (fun e => after_Init e = true) evs.
Proof.
  intros Hall. eapply Forall_impl; [exact Hall |].
  intros [] H; try discriminate; try reflexivity.
  destruct sorted, recursive; try discriminate; reflexivity.
Qed.

Lemma SetEpoch_after_Init (l : list Z) :
  Forall (fun e => after_Init e = true) (map SetEpoch l).
Proof. induction l; constructor; auto. Qed.

Lemma watches_app (a b : list event) :
  watches (a ++ b) = (watches a ++ watches b)%list.
Proof. apply omap_app. Qed.

Lemma deliveries_app (a b : list event) :
  deliveries (a ++ b) = (deliveries a ++ deliveries b)%list.
Proof. apply omap_app. Qed.

(** ** Slot acquisition *)

Section OccupyFacts.

Context {golib : GoLib} {etcdutil : EtcdUtil}.

(** A claim that fails leaves the store as it was. *)
Lemma TryOccupyTask_failed (s s' : Etcd.store) (name : string) (id : Z)
      (conn : string) :
  TryOccupyTask s name id conn = (s', false) -> s' = s.
Proof.
  unfold TryOccupyTask, Etcd.CompareAndSwap.
  destruct (Etcd.fault s); [intros [= <-]; reflexivity |].
  destruct (Etcd.nodes s !! TaskSlotPath name id) as [old |];
    [| intros [= <-]; reflexivity].
  destruct (_ && _); [discriminate | intros [= <-]; reflexivity].
Qed.

(** A claim goes through exactly on an entry that is there and holds the
    empty string. *)
Lemma TryOccupyTask_unassigned (s : Etcd.store) (name : string) (id : Z)
      (conn : string) :
  snd (TryOccupyTask s name id conn) = true <->
  Etcd.fault s = None
  /\ exists n, Etcd.nodes s !! TaskSlotPath name id = Some n
               /\ Value n = "" /\ Etcd.Dir n = false.
Proof.
  unfold TryOccupyTask, Etcd.CompareAndSwap.
  destruct (Etcd.fault s) as [e |]; cbn [snd].
  { split; [discriminate | intros [[=] _]]. }
  destruct (Etcd.nodes s !! TaskSlotPath name id) as [old |]; cbn [snd].
  2:{ split; [discriminate | intros (_ & n & [=] & _)]. }
  destruct (String.eqb_spec (Value old) "") as [Hv | Hv];
    destruct (Etcd.Dir old) eqn:Hd; cbn [andb negb snd].
  - split; [discriminate | intros (_ & n & [= <-] & _ & Hn); congruence].
  - split; [eauto 6 | reflexivity].
  - split; [discriminate | intros (_ & n & [= <-] & Hn & _); congruence].
  - split; [discriminate | intros (_ & n & [= <-] & Hn & _); congruence].
Qed.

Lemma occupy_slots_run (slots : list Node) : forall st : state,
  exists evs,
    trace (snd (occupy_slots slots st)) = (trace st ++ evs)%list
    /\ fw (snd (occupy_slots slots st)) = fw st
    /\ Forall (fun e => is_acquisition e = true) evs
    /\ occupied st (numeric_ids slots) (fst (occupy_slots slots st))
                (snd (occupy_slots slots st)) evs.
Proof.
  induction slots as [| s rest IH]; intros st.
  - exists []. cbn. rewrite app_nil_r. conj.
    right. conj.
  - cbn [occupy_slots numeric_ids omap list_omap].
    unfold parse_id at 1.
    destruct (ParseUint (Base (Key s)) 0 64) as [id | err].
    + rewrite run_get_fw, run_TryOccupyTask.
      destruct (TryOccupyTask (etcd st) (name (fw st)) id (ln (fw st)))
        as [s' ok] eqn:Hclaim.
      cbn [fst snd]. destruct ok.
      * exists [EtcdTryOccupyTask id (ln (fw st)) true]. cbn. conj.
        left. exists [], id, (numeric_ids rest). conj.
      * apply TryOccupyTask_failed in Hclaim as Hs'. subst s'.
        set (st1 := mkState _ _ _).
        destruct (IH st1) as (evs & Htr & Hfw & Hacq & Hocc).
        exists (EtcdTryOccupyTask id (ln (fw st)) false :: evs).
        rewrite Htr, Hfw. subst st1. cbn [trace fw].
        rewrite <- app_assoc. conj.
        destruct Hocc as [(pre & i & post & Hids & Hr & Hcl & Hpre & Hi)
                         | (Hr & Hcl & Hall & Hst)]; cbn [fw etcd] in *.
        -- left. exists (id :: pre), i, post. fold (numeric_ids rest).
           rewrite Hids, Hr. conj.
           ++ unfold claims in *. cbn. rewrite Hcl. reflexivity.
           ++ constructor; auto. rewrite Hclaim. reflexivity.
        -- right. fold (numeric_ids rest). rewrite Hr. conj.
           ++ unfold claims in *. cbn. rewrite Hcl. reflexivity.
           ++ constructor; auto. rewrite Hclaim. reflexivity.
    + rewrite run_emit.
      destruct (IH (record (Printf corrupted_warning) st))
        as (evs & Htr & Hfw & Hacq & Hocc).
      eexists (_ :: evs).
      rewrite Htr, Hfw, trace_record, <- app_assoc. conj.
Qed.

(** C5. [occupyTask] lists the task directory. On the entries it is given
    it makes its claims strictly in listed order, each an atomic conditional
    claim against the store, and stops at the first one that succeeds,
    returning that ID together with a nil error; the store it leaves is the
    store after that one claim. If every claim is refused it returns the
    error "no unassigned task found" (with Go's zero value 0 in place of an
    ID) and the store is untouched. When the listing itself fails, that
    error is returned and nothing is claimed. *)
Theorem occupyTask_first_successful_claim (st : state) :
  let r := fst (occupyTask st) in
  let st' := snd (occupyTask st) in
  exists evs,
    trace st' = (trace st ++ evs)%list
    /\ match Etcd.Get (etcd st) (MakeTaskDirPath (name (fw st))) true true with
       | inr err => r = Ret (0, Some err) /\ claims evs = []
       | inl slots =>
           occupied st (numeric_ids (Nodes (RNode slots))) r st' evs
       end.
Proof.
  cbn zeta. unfold occupyTask. rewrite run_get_fw, run_Get.
  destruct (Etcd.Get (etcd st) (MakeTaskDirPath (name (fw st))) true true)
    as [slots | err].
  - destruct (occupy_slots_run (Nodes (RNode slots))
                (record (EtcdGet (MakeTaskDirPath (name (fw st))) true true) st))
      as (evs & Htr & Hfw & _ & Hocc).
    eexists (_ :: evs). rewrite Htr, trace_record, <- app_assoc.
    split; [reflexivity |].
    destruct Hocc as [(pre & i & post & Hids & Hr & Hcl & Hpre & Hi)
                     | (Hr & Hcl & Hall & Hst)]; cbn [fw etcd record] in *.
    + left. exists pre, i, post. conj.
    + right. conj.
  - eexists [_]. cbn. conj.
Qed.

(** The loop on a listing and on its parseable entries, from two states
    that differ in their traces only. *)
Lemma occupy_slots_filter (slots : list Node) : forall st st2 : state,
  fw st = fw st2 -> etcd st = etcd st2 ->
  let r := occupy_slots slots st in
  let r' := occupy_slots (List.filter is_numeric slots) st2 in
  fst r = fst r'
  /\ etcd (snd r) = etcd (snd r')
  /\ fw (snd r) = fw (snd r')
  /\ (exists res, fst r = Ret res)
  /\ exists evs visited rest,
      trace (snd r) = (trace st ++ evs)%list
      /\ trace (snd r')
         = (trace st2 ++ List.filter (fun e => negb (is_warning e)) evs)%list
      /\ slots = (visited ++ rest)%list
      /\ length (List.filter is_warning evs)
         = length (List.filter (fun s => negb (is_numeric s)) visited)
      /\ match fst r with
         | Ret (_, None) => True
         | _ => rest = []
         end.
Proof.
  cbn zeta.
  induction slots as [| s rest IH]; intros st st2 Hfw Hetcd.
  - cbn. conj; try solve [eexists; reflexivity].
    exists [], [], []. cbn. rewrite !app_nil_r. conj.
  - destruct (ParseUint (Base (Key s)) 0 64) as [id | err] eqn:Hparse.
    + assert (Hnum : is_numeric s = true)
        by (unfold is_numeric, parse_id; rewrite Hparse; reflexivity).
      cbn [occupy_slots List.filter]. rewrite Hnum. cbn [occupy_slots].
      rewrite Hparse, !run_get_fw, !run_TryOccupyTask, <- Hfw, <- Hetcd.
      destruct (TryOccupyTask (etcd st) (name (fw st)) id (ln (fw st)))
        as [s' ok]. cbn [fst snd]. destruct ok.
      * cbn [mret M_ret fst snd etcd fw trace].
        conj; try solve [eexists; reflexivity].
        exists [EtcdTryOccupyTask id (ln (fw st)) true], [s], rest.
        cbn [List.filter is_warning negb app length]. rewrite Hnum. conj.
      * match goal with
        | |- context [occupy_slots rest ?a] => set (st1 := a)
        end.
        match goal with
        | |- context [occupy_slots (List.filter is_numeric rest) ?a] =>
            set (st3 := a)
        end.
        destruct (IH st1 st3 eq_refl eq_refl)
          as (Hr & Hs & Hf & Hret & evs & visited & rest' & Htr & Htr' & Hsl & Hlen & Hend).
        conj.
        exists (EtcdTryOccupyTask id (ln (fw st)) false :: evs), (s :: visited), rest'.
        rewrite Htr, Htr'. subst st1 st3.
        cbn [trace List.filter is_warning negb].
        rewrite <- !app_assoc. rewrite Hnum. cbn [negb]. conj.
        cbn. congruence.
    + assert (Hnum : is_numeric s = false)
        by (unfold is_numeric, parse_id; rewrite Hparse; reflexivity).
      cbn [occupy_slots List.filter]. rewrite Hnum, Hparse, run_emit.
      set (st1 := record _ st).
      destruct (IH st1 st2 Hfw Hetcd)
        as (Hr & Hs & Hf & Hret & evs & visited & rest' & Htr & Htr' & Hsl & Hlen & Hend).
      conj.
      exists (Printf corrupted_warning :: evs), (s :: visited), rest'.
      rewrite Htr, Htr'. subst st1.
      rewrite trace_record, <- !app_assoc.
      cbn [List.filter app].
      change (is_warning (Printf corrupted_warning)) with true.
      rewrite Hnum. cbn [negb length].
      rewrite Hlen. conj.
      cbn. congruence.
Qed.


End OccupyFacts.

(** ** Neighbour watches *)

Section WatchFacts.

Context {golib : GoLib} {etcdutil : EtcdUtil}.
Variable env : Env.

Lemma neighbor_events_frame (st st' : state) (who : taskRole) (taskID : Z) :
  fw st' = fw st -> etcd st' = etcd st ->
  neighbor_events st' who taskID = neighbor_events st who taskID.
Proof.
  intros Hf He. unfold neighbor_events, read_neighbor. rewrite Hf, He.
  reflexivity.
Qed.

Lemma watch_neighbor_run (who : taskRole) (taskID : Z) (st : state) :
  who <> roleNone ->
  watch_neighbor who taskID st =
    (if is_fatal_answer (read_neighbor st who taskID)
     then Exited else Ret (mkChan 1),
     mkState (fw st) (etcd st)
             (trace st ++ neighbor_events st who taskID)).
Proof.
  intros Hwho. unfold watch_neighbor, neighbor_events, read_neighbor.
  destruct who; [congruence | |]; mstep; cbn [watch_path watch_callback];
    match goal with
    | |- context [Etcd.Get ?s ?p false false] =>
        destruct (Etcd.Get s p false false) as [resp | err]
    end; cbn [is_fatal_answer baseline];
    try destruct (IsKeyNotFound err); cbn [negb]; mstep;
    unfold record; cbn [fw etcd trace]; rewrite <- ?app_assoc; reflexivity.
Qed.

Lemma watch_neighbor_none (taskID : Z) (st : state) :
  watch_neighbor roleNone taskID st = (Panicked, record (Panic "unimplemented") st).
Proof. reflexivity. Qed.

(** The loop: it goes through the neighbours in order, and stops at the
    first whose read fails for good. *)
Lemma watch_neighbors_run (who : taskRole) (taskIDs : list Z) :
  who <> roleNone -> forall st : state,
  let r := watch_neighbors who taskIDs st in
  fw (snd r) = fw st /\ etcd (snd r) = etcd st
  /\ exists reached,
      trace (snd r) = (trace st ++ flat_map (neighbor_events st who) reached)%list
      /\ ((exists stops', fst r = Ret stops'
           /\ reached = taskIDs
           /\ Forall (fun id => is_fatal_answer (read_neighbor st who id) = false)
                     taskIDs)
          \/ (fst r = Exited
              /\ exists pre id post,
                  taskIDs = (pre ++ id :: post)%list
                  /\ reached = (pre ++ [id])%list
                  /\ is_fatal_answer (read_neighbor st who id) = true
                  /\ Forall (fun id => is_fatal_answer (read_neighbor st who id) = false)
                            pre)).
Proof.
  intros Hwho. cbn zeta.
  induction taskIDs as [| id rest IH]; intros st.
  - cbn. conj. exists []. cbn. rewrite app_nil_r. conj.
    left. exists []. conj.
  - cbn [watch_neighbors]. rewrite run_bind, watch_neighbor_run by assumption.
    destruct (is_fatal_answer (read_neighbor st who id)) eqn:Hfatal.
    + cbn [fst snd fw etcd trace]. conj.
      exists [id]. cbn [flat_map]. rewrite app_nil_r. conj.
      right. conj. exists [], id, rest. conj.
    + set (st1 := mkState _ _ _).
      assert (Hframe : forall i, neighbor_events st1 who i = neighbor_events st who i)
        by (intros i; apply neighbor_events_frame; reflexivity).
      assert (Hread : forall i, read_neighbor st1 who i = read_neighbor st who i)
        by reflexivity.
      destruct (IH st1) as (Hf & He & reached & Htr & Hcases).
      rewrite run_bind.
      destruct (watch_neighbors who rest st1) as [[stops' | |] st2] eqn:Hrun;
        mstep; cbn [fst snd] in *; rewrite Hf, He; conj.
      * exists (id :: reached). rewrite Htr. subst st1. cbn [trace flat_map].
        rewrite <- app_assoc, (flat_map_ext _ _ Hframe). conj.
        destruct Hcases as [(? & _ & -> & Hall) | (Hex & _)]; [| discriminate].
        left. eexists. conj.
      * exists (id :: reached). rewrite Htr. subst st1. cbn [trace flat_map].
        rewrite <- app_assoc, (flat_map_ext _ _ Hframe). conj.
        destruct Hcases as [(? & Hex & _) | (_ & pre & i & post & -> & -> & Hi & Hall)];
          [discriminate |].
        right. conj. exists (id :: pre), i, post. conj.
      * destruct Hcases as [(? & Hex & _) | (Hex & _)]; discriminate.
Qed.

Lemma watch_neighbors_none (taskIDs : list Z) (st : state) :
  watch_neighbors roleNone taskIDs st =
    match taskIDs with
    | [] => (Ret [], st)
    | _ :: _ => (Panicked, record (Panic "unimplemented") st)
    end.
Proof. destruct taskIDs; reflexivity. Qed.

Lemma Forall_omap {A B : Type} (f : A -> option B) (Q : B -> Prop) (l : list A) :
  Forall (fun x => match f x with Some y => Q y | None => True end) l ->
  Forall Q (omap f l).
Proof.
  induction 1 as [| x l Hx _ IH]; cbn; [constructor |].
  destruct (f x); [constructor |]; assumption.
Qed.

(** [watchAll] is the loop followed by the append to [f.stops]: the trace
    and the outcome are those of the loop. *)
Lemma watchAll_run (who : taskRole) (taskIDs : list Z) (st : state) :
  trace (snd (watchAll who taskIDs st)) = trace (snd (watch_neighbors who taskIDs st))
  /\ etcd (snd (watchAll who taskIDs st)) = etcd (snd (watch_neighbors who taskIDs st))
  /\ with_stops [] (fw (snd (watchAll who taskIDs st)))
     = with_stops [] (fw (snd (watch_neighbors who taskIDs st)))
  /\ match fst (watch_neighbors who taskIDs st) with
     | Ret _ => fst (watchAll who taskIDs st) = Ret tt
     | Exited => fst (watchAll who taskIDs st) = Exited
     | Panicked => fst (watchAll who taskIDs st) = Panicked
     end.
Proof.
  unfold watchAll. rewrite run_bind.
  destruct (watch_neighbors who taskIDs st) as [[stops' | |] st1]; conj.
Qed.

(** The events of a watch set-up, whatever the role. *)
Lemma watchAll_events (who : taskRole) (taskIDs : list Z) (st : state) :
  exists evs,
    trace (snd (watchAll who taskIDs st)) = (trace st ++ evs)%list
    /\ ((who <> roleNone
         /\ exists reached, evs = flat_map (neighbor_events st who) reached)
        \/ (who = roleNone /\ watches evs = [] /\ deliveries evs = []
            /\ fst (watchAll who taskIDs st) <> Exited)).
Proof.
  destruct (watchAll_run who taskIDs st) as (Htr & _ & _ & Hout).
  rewrite Htr.
  destruct (decide (who = roleNone)) as [-> | Hwho].
  - rewrite watch_neighbors_none in *. destruct taskIDs.
    + exists []. cbn in *. rewrite app_nil_r. split; [reflexivity |].
      right. conj; congruence.
    + eexists [_]. cbn in *. split; [reflexivity |].
      right. conj; congruence.
  - destruct (watch_neighbors_run who taskIDs Hwho st)
      as (_ & _ & reached & Hevs & _).
    eexists. split; [exact Hevs |]. left. eauto.
Qed.

Lemma callbacks_deliver_loop (cb : callback) (taskID : Z) (receiver : list Response) :
  callbacks (deliver_loop cb taskID receiver)
  = map (fun r => call cb taskID (Value (RNode r))) (writes receiver).
Proof.
  induction receiver as [| r rest IH]; [reflexivity |].
  cbn [deliver_loop writes List.filter].
  destruct (String.eqb (Action r) "set"); cbn [negb]; [| exact IH].
  unfold callbacks in *. cbn [List.filter is_meta_callback map].
  destruct cb; cbn; f_equal; exact IH.
Qed.

Lemma callbacks_deliver (cb : callback) (taskID : Z) (resp : option Response)
      (receiver : list Response) :
  callbacks (deliver cb taskID resp receiver)
  = (match resp with
     | Some r => [call cb taskID (Value (RNode r))]
     | None => []
     end ++ map (fun r => call cb taskID (Value (RNode r))) (writes receiver))%list.
Proof.
  unfold deliver, callbacks. rewrite List.filter_app.
  fold (callbacks (deliver_loop cb taskID receiver)).
  rewrite callbacks_deliver_loop.
  destruct resp; [destruct cb |]; reflexivity.
Qed.

Lemma watches_neighbor_events (st : state) (who : taskRole) (ids : list Z) :
  Forall (fun id => is_fatal_answer (read_neighbor st who id) = false) ids ->
  map fst (watches (flat_map (neighbor_events st who) ids))
  = map (watch_path who (name (fw st))) ids.
Proof.
  induction 1 as [| id ids Hid _ IH]; [reflexivity |].
  cbn [flat_map map]. rewrite watches_app, map_app, IH.
  unfold neighbor_events. rewrite Hid. reflexivity.
Qed.

Lemma neighbor_events_index (st : state) (who : taskRole) (id : Z) :
  Forall (fun e => match e with
                   | Go (go_Watch p i) => index_as_read st (p, i)
                   | _ => True
                   end) (neighbor_events st who id).
Proof.
  unfold neighbor_events, index_as_read, read_neighbor. cbn [fst snd].
  destruct (Etcd.Get (etcd st) (watch_path who (name (fw st)) id) false false)
    as [resp | err] eqn:Hget; cbn [is_fatal_answer].
  - repeat constructor. rewrite Hget. reflexivity.
  - destruct (IsKeyNotFound err) eqn:Hnf; cbn [negb]; repeat constructor.
    rewrite Hget. auto.
Qed.

(** Below the last [uint64], Go's sum is the successor. *)
Lemma add64_succ (i : Z) : 0 <= i < uint64_max -> add64 i 1 = i + 1.
Proof.
  unfold add64, wrap64, uint64_max. intros H. apply Z.mod_small. lia.
Qed.

(** C3. Every watch [watchAll] starts carries the index its own baseline
    read dictates: 1 when the read found the key absent, and the change index
    the store returned plus one when the read succeeded. The sum is Go's
    [uint64] addition, which is the integer successor for every index below
    2^64-1. When [watchAll] returns, it has started one watch per neighbour,
    in order, each on that neighbour's metadata key. *)
Theorem watchAll_watch_index (who : taskRole) (taskIDs : list Z) (st : state) :
  let r := watchAll who taskIDs st in
  exists evs,
    trace (snd r) = (trace st ++ evs)%list
    /\ Forall (fun w =>
                 match Etcd.Get (etcd st) (fst w) false false with
                 | inl resp => snd w = (EtcdIndex resp + 1) mod 2 ^ 64
                 | inr err => IsKeyNotFound err = true /\ snd w = 1
                 end) (watches evs)
    /\ match fst r with
       | Ret _ => map fst (watches evs)
                  = map (watch_path who (name (fw st))) taskIDs
       | _ => True
       end.
Proof.
  cbn zeta.
  destruct (watchAll_run who taskIDs st) as (Htr & _ & _ & Hout).
  rewrite Htr.
  destruct (decide (who = roleNone)) as [-> | Hwho].
  - rewrite watch_neighbors_none in *. destruct taskIDs; cbn in *.
    + exists []. rewrite app_nil_r, Hout. conj.
    + eexists [_]. rewrite Hout. conj.
  - destruct (watch_neighbors_run who taskIDs Hwho st)
      as (_ & _ & reached & Hevs & Hcases).
    eexists. split; [exact Hevs |]. split.
    + apply Forall_omap, Forall_flat_map, Forall_forall. intros id _.
      eapply Forall_impl; [apply neighbor_events_index |].
      intros [] He; auto. destruct g; auto.
    + destruct Hcases as [(stops' & Hr & -> & Hall) | (Hr & _)];
        rewrite Hr in Hout; rewrite Hout; [| exact I].
      apply watches_neighbor_events, Hall.
Qed.

Lemma neighbor_events_baseline (st : state) (who : taskRole) (id : Z) :
  Forall (fun e => match e with
                   | Go (go_deliver cb id' p i resp) =>
                       resp = baseline (Etcd.Get (etcd st) p false false)
                       /\ is_fatal_answer (Etcd.Get (etcd st) p false false) = false
                       /\ cb = watch_callback who /\ id' = id
                       /\ p = watch_path who (name (fw st)) id
                   | _ => True
                   end) (neighbor_events st who id).
Proof.
  unfold neighbor_events, read_neighbor.
  destruct (is_fatal_answer _) eqn:Hfatal; repeat constructor; assumption.
Qed.

Lemma deliveries_neighbor_events (st : state) (who : taskRole) (ids : list Z) :
  Forall (fun id => is_fatal_answer (read_neighbor st who id) = false) ids ->
  deliveries (flat_map (neighbor_events st who) ids)
  = map (neighbor_delivery st who) ids.
Proof.
  induction 1 as [| id ids Hid _ IH]; [reflexivity |].
  cbn [flat_map map]. rewrite deliveries_app, IH.
  unfold neighbor_events. rewrite Hid. reflexivity.
Qed.

Lemma deliveries_fatal (st : state) (who : taskRole) (id : Z) :
  is_fatal_answer (read_neighbor st who id) = true ->
  deliveries (neighbor_events st who id) = [].
Proof. intros H. unfold neighbor_events. rewrite H. reflexivity. Qed.

(** C6. [watchAll] launches one delivery goroutine per neighbour watch: when
    it returns, one for every neighbour, in order; when a baseline read ends
    the process, one for every neighbour before that one. The goroutine of a
    neighbour makes that neighbour's callbacks, on the events of the watch
    on that neighbour's key, and closes over the answer of the baseline
    read. The metadata callbacks it makes are, in this order: one call with
    the baseline value when the read returned one (none otherwise), then one
    call per event received from the watch whose action is "set", in the
    order received, with that event's value; events of any other action
    produce no call. *)
Theorem watchAll_delivers_baseline_then_sets (who : taskRole)
        (taskIDs : list Z) (st : state) (f : framework) :
  exists evs,
    trace (snd (watchAll who taskIDs st)) = (trace st ++ evs)%list
    /\ match fst (watchAll who taskIDs st) with
       | Ret _ => deliveries evs = map (neighbor_delivery st who) taskIDs
       | Exited =>
           exists pre id post,
             taskIDs = (pre ++ id :: post)%list
             /\ deliveries evs = map (neighbor_delivery st who) pre
       | Panicked => who = roleNone
       end
    /\ Forall (fun g =>
                 match g with
                 | go_deliver cb id p i resp =>
                     resp = baseline (Etcd.Get (etcd st) p false false)
                     /\ callbacks (body env f g)
                        = (match resp with
                           | Some r => [call cb id (Value (RNode r))]
                           | None => []
                           end
                           ++ map (fun r => call cb id (Value (RNode r)))
                                  (List.filter
                                     (fun r => String.eqb (Action r) "set")
                                     (received env p i)))%list
                 | _ => True
                 end) (deliveries evs).
Proof.
  destruct (watchAll_run who taskIDs st) as (Htr & _ & _ & Hout).
  rewrite Htr.
  destruct (decide (who = roleNone)) as [-> | Hwho].
  - rewrite watch_neighbors_none in *. destruct taskIDs; cbn in *.
    + exists []. rewrite app_nil_r, Hout. conj.
    + eexists [_]. rewrite Hout. conj.
  - destruct (watch_neighbors_run who taskIDs Hwho st)
      as (_ & _ & reached & Hevs & Hcases).
    eexists. split; [exact Hevs |]. split.
    + destruct Hcases
        as [(stops' & Hr & -> & Hall)
           | (Hr & pre & id & post & -> & -> & Hid & Hall)];
        rewrite Hr in Hout; rewrite Hout.
      * apply deliveries_neighbor_events, Hall.
      * exists pre, id, post. split; [reflexivity |].
        rewrite flat_map_app, deliveries_app,
          (deliveries_neighbor_events _ _ _ Hall).
        cbn [flat_map]. rewrite app_nil_r, (deliveries_fatal _ _ _ Hid).
        apply app_nil_r.
    + apply Forall_omap, Forall_flat_map, Forall_forall. intros id _.
      eapply Forall_impl; [apply neighbor_events_baseline |].
      intros [] He; auto. destruct g; auto.
      destruct He as (-> & _). split; [reflexivity |].
      cbn [body]. apply callbacks_deliver.
Qed.

Lemma neighbor_events_key_not_found (st : state) (who : taskRole) (id : Z) :
  Forall (fun e => match e with
                   | Go (go_deliver cb id' p i resp) =>
                       match Etcd.Get (etcd st) p false false with
                       | inr err =>
                           IsKeyNotFound err = true /\ resp = None /\ i = 1
                       | inl r => resp = Some r
                       end
                   | _ => True
                   end) (neighbor_events st who id).
Proof.
  unfold neighbor_events, read_neighbor.
  destruct (Etcd.Get (etcd st) (watch_path who (name (fw st)) id) false false)
    as [resp | err] eqn:Hget; cbn [is_fatal_answer baseline].
  - repeat constructor. rewrite Hget. reflexivity.
  - destruct (IsKeyNotFound err) eqn:Hnf; cbn [negb]; repeat constructor.
    rewrite Hget. auto.
Qed.

Lemma is_fatal_answer_true (r : Response + error) :
  is_fatal_answer r = true <->
  exists err, r = inr err /\ IsKeyNotFound err = false.
Proof.
  destruct r as [resp | err]; cbn.
  - split; [discriminate | intros (? & [=] & _)].
  - rewrite negb_true_iff. split; [eauto |]. intros (? & [= <-] & H); exact H.
Qed.

(** C7. With a proper role, [watchAll] ends the process if and only if the
    baseline read of some neighbour answers with an error that is not "key
    not found"; the last thing it does then is the fatal log line, and
    otherwise it returns. A delivery goroutine is launched only for a
    neighbour whose read did not fail in that way, and where the read
    answered "key not found" the goroutine has no baseline and its watch
    starts at index 1. *)
Theorem watchAll_fatal_unless_key_not_found (who : taskRole)
        (taskIDs : list Z) (st : state) :
  who <> roleNone ->
  let r := watchAll who taskIDs st in
  (fst r = Exited <->
     exists id err, In id taskIDs
                    /\ read_neighbor st who id = inr err
                    /\ IsKeyNotFound err = false)
  /\ (fst r = Exited \/ fst r = Ret tt)
  /\ exists evs,
      trace (snd r) = (trace st ++ evs)%list
      /\ (fst r = Exited ->
          exists evs', evs = (evs' ++ [Fatalf "etcd get(%s) failed: %v"])%list)
      /\ Forall (fun g =>
                   match g with
                   | go_deliver cb id p i resp =>
                       match Etcd.Get (etcd st) p false false with
                       | inr err =>
                           IsKeyNotFound err = true /\ resp = None /\ i = 1
                       | inl r => resp = Some r
                       end
                   | _ => True
                   end) (deliveries evs).
Proof.
  intros Hwho. cbn zeta.
  destruct (watchAll_run who taskIDs st) as (Htr & _ & _ & Hout).
  destruct (watch_neighbors_run who taskIDs Hwho st)
    as (_ & _ & reached & Hevs & Hcases).
  rewrite Htr.
  assert (Hdel : Forall (fun g =>
                   match g with
                   | go_deliver cb id p i resp =>
                       match Etcd.Get (etcd st) p false false with
                       | inr err =>
                           IsKeyNotFound err = true /\ resp = None /\ i = 1
                       | inl r => resp = Some r
                       end
                   | _ => True
                   end) (deliveries (flat_map (neighbor_events st who) reached))).
  { apply Forall_omap, Forall_flat_map, Forall_forall. intros id _.
    eapply Forall_impl; [apply neighbor_events_key_not_found |].
    intros [] He; auto. destruct g; auto. }
  destruct Hcases as [(stops' & Hr & -> & Hall)
                     | (Hr & pre & id & post & -> & -> & Hid & Hpre)];
    rewrite Hr in Hout; rewrite Hout.
  - split; [| split; [right; reflexivity |]].
    + split; [discriminate |]. intros (id & err & Hin & Hread & Hnf).
      rewrite List.Forall_forall in Hall. specialize (Hall id Hin).
      rewrite Hread in Hall. cbn in Hall. rewrite Hnf in Hall. discriminate.
    + eexists. split; [exact Hevs |]. split; [discriminate | exact Hdel].
  - split; [| split; [left; reflexivity |]].
    + split; [| reflexivity]. intros _.
      apply is_fatal_answer_true in Hid as (err & Hread & Hnf).
      exists id, err. rewrite in_app_iff. cbn. auto.
    + eexists. split; [exact Hevs |]. split; [intros _ | exact Hdel].
      rewrite flat_map_app. cbn [flat_map]. rewrite app_nil_r.
      unfold neighbor_events at 2. rewrite Hid.
      eexists (_ ++ [_])%list. rewrite <- app_assoc. reflexivity.
Qed.

End WatchFacts.

(** ** [Start] *)

Section StartFacts.

Context {golib : GoLib} {etcdutil : EtcdUtil}.
Variable env : Env.

Lemma state_eta (st : state) : st = mkState (fw st) (etcd st) (trace st).
Proof. destruct st; reflexivity. Qed.

Lemma run_standby_failed {B : Type} (k : option error -> M B) (st : state)
      (err : error) :
  standby_result env = Some err ->
  (standby env ≫= k) st = k (Some err) (record Standby st).
Proof. intros H. unfold standby. rewrite H. reflexivity. Qed.

Lemma run_standby_obtained {B : Type} (k : option error -> M B) (st : state) :
  standby_result env = None ->
  (standby env ≫= k) st
  = k None (mkState (with_taskID (standby_slot env) (fw st))
                    (Etcd.Set_ (etcd st)
                               (TaskSlotPath (name (fw st)) (standby_slot env))
                               (ln (fw st)))
                    (trace st ++ [Standby])).
Proof. intros H. unfold standby. rewrite H. reflexivity. Qed.

Lemma run_GetAndWatchEpoch {B : Type} (n : string)
      (k : Z * option error -> M B) (st : state) :
  (etcdutil_GetAndWatchEpoch env n ≫= k) st
  = k (epoch_fetch env) (record (GetAndWatchEpoch n) st).
Proof. reflexivity. Qed.

Lemma occupyTask_returns (st : state) :
  exists id err s' evs,
    occupyTask st = (Ret (id, err), mkState (fw st) s' (trace st ++ evs))
    /\ Forall (fun e => is_acquisition e = true) evs.
Proof.
  unfold occupyTask. mstep.
  destruct (Etcd.Get (etcd st) (MakeTaskDirPath (name (fw st))) true true)
    as [slots | err].
  - destruct (occupy_slots_run (Nodes (RNode slots))
                (record (EtcdGet (MakeTaskDirPath (name (fw st))) true true) st))
      as (evs & Htr & Hfw & Hacq & Hocc).
    destruct (occupy_slots _ _) as [out st'] eqn:Hrun. cbn [fst snd] in *.
    assert (exists id err, out = Ret (id, err)) as (id & err & ->).
    { destruct Hocc as [(? & ? & ? & _ & -> & _) | (-> & _)]; eauto. }
    exists id, err, (etcd st'), (EtcdGet (MakeTaskDirPath (name (fw st))) true true :: evs).
    split.
    + f_equal. rewrite (state_eta st'), Hfw, Htr, trace_record, <- app_assoc.
      reflexivity.
    + constructor; [reflexivity | exact Hacq].
  - eexists 0, (Some err), (etcd st), [_]. split; [reflexivity |].
    repeat constructor.
Qed.

Lemma watchAll_returns (who : taskRole) (taskIDs : list Z) (st : state) :
  who <> roleNone ->
  exists out f' evs,
    watchAll who taskIDs st = (out, mkState f' (etcd st) (trace st ++ evs))
    /\ with_stops [] f' = with_stops [] (fw st)
    /\ Forall (fun e => is_watch_setup e = true) evs
    /\ epochs evs = []
    /\ ((out = Ret tt /\ Forall (fun e => is_exit e = false) evs)
        \/ (out = Exited
            /\ exists evs', evs = (evs' ++ [Fatalf "etcd get(%s) failed: %v"])%list
                            /\ Forall (fun e => is_exit e = false) evs')).
Proof.
  intros Hwho.
  destruct (watchAll_run who taskIDs st) as (Htr & Hetcd & Hfw & Hout).
  destruct (watch_neighbors_run who taskIDs Hwho st)
    as (Hf & He & reached & Hevs & Hcases).
  destruct (watchAll who taskIDs st) as [out st'] eqn:Hrun. cbn [fst snd] in *.
  exists out, (fw st'), (flat_map (neighbor_events st who) reached).
  assert (Hsetup : forall ids,
             Forall (fun e => is_watch_setup e = true)
                    (flat_map (neighbor_events st who) ids)).
  { intros ids. apply Forall_flat_map, Forall_forall. intros id _.
    unfold neighbor_events. destruct (is_fatal_answer _); repeat constructor. }
  assert (Hepochs : forall ids, epochs (flat_map (neighbor_events st who) ids) = []).
  { induction ids as [| id ids IH]; [reflexivity |]. cbn [flat_map].
    rewrite epochs_app, IH. unfold neighbor_events.
    destruct (is_fatal_answer _); reflexivity. }
  assert (Hquiet : forall ids,
             Forall (fun id => is_fatal_answer (read_neighbor st who id) = false) ids ->
             Forall (fun e => is_exit e = false)
                    (flat_map (neighbor_events st who) ids)).
  { intros ids Hids. apply Forall_flat_map.
    eapply Forall_impl; [exact Hids |]. cbn. intros id Hid.
    unfold neighbor_events. rewrite Hid. repeat constructor. }
  split; [| split; [| split; [| split]]]; auto.
  - f_equal. rewrite (state_eta st'), Htr, Hetcd, He, Hevs. reflexivity.
  - rewrite Hfw, Hf. reflexivity.
  - destruct Hcases as [(stops' & Hr & -> & Hall)
                       | (Hr & pre & id & post & -> & -> & Hid & Hpre)];
      rewrite Hr in Hout.
    + left. auto.
    + right. split; [exact Hout |].
      exists (flat_map (neighbor_events st who) pre ++
              [EtcdGet (watch_path who (name (fw st)) id) false false])%list.
      split.
      * rewrite flat_map_app. cbn [flat_map]. rewrite app_nil_r.
        unfold neighbor_events at 2. rewrite Hid, <- app_assoc. reflexivity.
      * apply Forall_app. split; [auto | repeat constructor].
Qed.

Lemma epoch_loop_returns (updates : list Z) : forall st : state,
  exists f',
    epoch_loop updates st
    = (Ret tt, mkState f' (etcd st) (trace st ++ map SetEpoch updates))
    /\ epochChan f' = epochChan (fw st).
Proof.
  induction updates as [| e rest IH]; intros st.
  - exists (fw st). cbn [epoch_loop map]. mstep. rewrite app_nil_r, <- state_eta.
    auto.
  - cbn [epoch_loop map]. mstep.
    match goal with
    | |- context [epoch_loop rest ?a] => destruct (IH a) as (f' & Hrun & Hchan)
    end.
    exists f'. rewrite Hrun. cbn [record etcd trace fw epoch with_epoch] in *.
    rewrite <- app_assoc. auto.
Qed.

(** The shape of the main goroutine's trace: the steps of slot acquisition,
    then either the fatal exit of a failed acquisition, or the task is built
    and initialised and everything else follows. *)
Lemma Start_shape (f : framework) (s : Etcd.store) :
  let r := Start env (boot f s) in
  exists acq,
    Forall (fun e => is_acquisition e = true) acq
    /\ ((fst r = Exited /\ trace (snd r) = (acq ++ [occupy_failed])%list)
        \/ exists id post,
            trace (snd r)
            = (acq ++ [GetTask id; SetTaskID id; Init id] ++ post)%list
            /\ Forall (fun e => after_Init e = true) post
            /\ match fst r with
               | Ret _ =>
                   epochs post = fst (epoch_fetch env) :: epoch_updates env
                   /\ epochChan (fw (snd r)) = Some (mkChan 1)
                   /\ exists setup,
                       post = (setup
                               ++ SetEpoch (fst (epoch_fetch env))
                               :: map SetEpoch (epoch_updates env)
                               ++ [ReleaseResources])%list
                       /\ epochs setup = []
               | _ => epochs post = []
               end).
Proof.
  cbn zeta.
  destruct (Start env (boot f s)) as [out st'] eqn:Hrun. cbn [fst snd].
  unfold Start, boot in Hrun. mstep_in Hrun.
  assert (exists st1, (if log f is None
                       then set_fw (with_log (Some stdoutLogger))
                       else mret tt) (mkState f s []) = (Ret tt, st1)
                      /\ trace st1 = [])
    as (st1 & Hlog & Hst1).
  { destruct (log f); eexists; split; reflexivity. }
  rewrite run_bind, Hlog in Hrun. mstep_in Hrun.
  rewrite (run_bind occupyTask) in Hrun.
  match type of Hrun with
  | context [occupyTask ?a] =>
      destruct (occupyTask_returns a) as (id & err & s' & evs & Hocc & Hacq)
  end.
  rewrite Hocc in Hrun. cbn [record fw etcd trace] in *. rewrite Hst1 in Hrun.
  cbn [app] in Hrun. mstep_in Hrun. clear Hocc Hlog.
  rewrite run_bind in Hrun.
  match type of Hrun with
  | context [match ?m ?st with _ => _ end] =>
      assert (exists acq,
                 Forall (fun e => is_acquisition e = true) acq
                 /\ (m st = (Exited, mkState (fw st) (etcd st)
                                             (acq ++ [occupy_failed]))
                     \/ exists id' s'',
                         m st = (Ret tt, mkState (with_taskID id' (fw st))
                                                 s'' acq)))
        as (acq & Hacq' & Hstandby)
  end.
  { destruct err as [e |];
      [destruct (standby_result env) as [e' |] eqn:Hsb;
       [rewrite (run_standby_failed _ _ _ Hsb)
       | rewrite (run_standby_obtained _ _ Hsb)] |]; mstep.
    - exists (NewClient (etcdURLs f) :: evs ++ [Standby])%list. split.
      + constructor; [reflexivity |]. apply Forall_app. split; [exact Hacq |].
        repeat constructor.
      + left. reflexivity.
    - exists (NewClient (etcdURLs f) :: evs ++ [Standby])%list. split.
      + constructor; [reflexivity |]. apply Forall_app. split; [exact Hacq |].
        repeat constructor.
      + right. eexists _, _. reflexivity.
    - exists (NewClient (etcdURLs f) :: evs). split.
      + constructor; [reflexivity | exact Hacq].
      + right. exists id. eexists. reflexivity. }
  exists acq. split; [exact Hacq' |].
  destruct Hstandby as [Hstandby | (id' & s'' & Hstandby)];
    rewrite Hstandby in Hrun.
  { left. injection Hrun as <- <-. auto. }
  right. clear Hstandby. mstep_in Hrun.
  exists id'.
  rewrite run_GetAndWatchEpoch in Hrun.
  destruct (epoch_fetch env) as [e0 fetch_err]. cbn [fst snd].
  destruct fetch_err as [e |]; mstep_in Hrun.
  { injection Hrun as <- <-. eexists. flat_trace. split; [reflexivity |].
    split; [repeat constructor | reflexivity]. }
  rewrite (run_bind (watchAll _ _)) in Hrun.
  match type of Hrun with
  | context [watchAll roleParent ?ids ?st] =>
      destruct (watchAll_returns roleParent ids st)
        as (out1 & f1 & evs1 & Hw1 & Hf1 & Hsetup1 & Hep1 & Hout1);
      [discriminate |]
  end.
  rewrite Hw1 in Hrun. clear Hw1. cbn [fw etcd trace] in *.
  apply watch_setup_after_Init in Hsetup1.
  pose proof (f_equal epoch Hf1) as Hepoch1.
  pose proof (f_equal taskID Hf1) as Htask1.
  pose proof (f_equal epochChan Hf1) as Hchan1.
  cbn in Hepoch1, Htask1, Hchan1.
  destruct Hout1 as [(-> & _) | (-> & _)].
  2:{ injection Hrun as <- <-. eexists. flat_trace. split; [reflexivity |].
      split; [forall_split; auto |].
      unfold epochs in *. cbn. rewrite Hep1. reflexivity. }
  mstep_in Hrun. rewrite (run_bind (watchAll _ _)) in Hrun.
  match type of Hrun with
  | context [watchAll roleChild ?ids ?st] =>
      destruct (watchAll_returns roleChild ids st)
        as (out2 & f2 & evs2 & Hw2 & Hf2 & Hsetup2 & Hep2 & Hout2);
      [discriminate |]
  end.
  rewrite Hw2 in Hrun. clear Hw2. cbn [fw etcd trace] in *.
  apply watch_setup_after_Init in Hsetup2.
  pose proof (f_equal epoch Hf2) as Hepoch2.
  pose proof (f_equal epochChan Hf2) as Hchan2.
  cbn in Hepoch2, Hchan2.
  destruct Hout2 as [(-> & _) | (-> & _)].
  2:{ injection Hrun as <- <-. eexists. flat_trace. split; [reflexivity |].
      split; [forall_split; auto |].
      unfold epochs in *. cbn. rewrite omap_app, Hep1. cbn. rewrite Hep2.
      reflexivity. }
  mstep_in Hrun. rewrite (run_bind (epoch_loop _)) in Hrun.
  match type of Hrun with
  | context [epoch_loop ?l ?st] =>
      destruct (epoch_loop_returns l st) as (f3 & Hloop & Hchan3)
  end.
  rewrite Hloop in Hrun. clear Hloop. mstep_in Hrun. cbn in Hchan3.
  injection Hrun as <- <-. eexists. flat_trace.
  rewrite Hepoch2, Hepoch1. split; [reflexivity |].
  split; [forall_split; auto using SetEpoch_after_Init |].
  split; [| split].
  - unfold epochs in *. cbn. rewrite omap_app, Hep1. cbn.
    rewrite omap_app, Hep2. cbn. rewrite omap_app.
    fold (epochs (map SetEpoch (epoch_updates env))).
    rewrite epochs_SetEpoch, app_nil_r. reflexivity.
  - congruence.
  - match goal with
    | |- context [GetAndWatchEpoch ?n] =>
        exists (GetAndWatchEpoch n :: Go go_heartbeat
                  :: Go go_detectAndReportFailures :: GetParents e0
                  :: evs1 ++ GetChildren e0
                  :: evs2 ++ [Go go_startHTTP; Go go_dataResponseReceiver;
                              Printf "Start the work, task: %d\n"])%list
    end.
    split.
    + cbn [app]. rewrite <- !app_assoc. cbn [app]. rewrite <- !app_assoc.
      reflexivity.
    + unfold epochs in *. cbn. rewrite omap_app, Hep1. cbn.
      rewrite omap_app, Hep2. reflexivity.
Qed.

Lemma acquisition_epochs (evs : list event) :
  Forall (fun e => is_acquisition e = true) evs -> epochs evs = [].
Proof.
  induction 1 as [| e evs He _ IH]; [reflexivity |].
  destruct e; try discriminate; exact IH.
Qed.


End StartFacts.

(** ** Runs of the process *)

Section RunFacts.

Context {golib : GoLib} {etcdutil : EtcdUtil}.
Variable env : Env.
Variable f : framework.

(** Once the process has exited, nothing happens. *)
Lemma run_halted (tr : list event) (c : config) :
  run env f ([], []) tr c -> tr = [] /\ c = ([], []).
Proof.
  inversion 1 as [| | e g p1 p2 main tr' c' Hrun Hc]; subst; auto.
  destruct p1; discriminate.
Qed.

(** Every event of a run is an event of the main goroutine, of a goroutine
    already running, or of one launched on the way. *)
Lemma run_events (P : event -> Prop) (c c' : config) (tr : list event) :
  (forall g, Forall P (body env f g)) ->
  run env f c tr c' ->
  Forall P (fst c) -> Forall (Forall P) (snd c) -> Forall P tr.
Proof.
  intros Hbody. induction 1 as [c | e main pool tr c' Hrun IH
                                  | e g p1 p2 main tr c' Hrun IH];
    cbn [fst snd]; intros Hmain Hpool.
  - constructor.
  - inversion Hmain as [| ? ? He Hmain']; subst. constructor; [exact He |].
    apply IH; unfold after; destruct (is_exit e); cbn [fst snd]; auto.
    apply Forall_app. split; [exact Hpool |].
    destruct e; cbn; auto.
  - apply Forall_app in Hpool as [Hp1 Hp2].
    inversion Hp2 as [| ? ? Heg Hp2']; subst.
    inversion Heg as [| ? ? He Hg]; subst. constructor; [exact He |].
    apply IH; unfold after; destruct (is_exit e); cbn [fst snd]; auto.
    apply Forall_app. split; auto.
Qed.

(** While the main goroutine launches nothing and does not exit, a run
    follows it step by step. *)
Lemma run_prefix (pre rest tr : list event) (c : config) :
  Forall (fun e => before_Init e = true /\ is_exit e = false) pre ->
  run env f ((pre ++ rest)%list, []) tr c ->
  (exists left, pre = (tr ++ left)%list /\ c = ((left ++ rest)%list, []))
  \/ (exists tr', tr = (pre ++ tr')%list /\ run env f (rest, []) tr' c).
Proof.
  intros Hpre. revert tr.
  induction Hpre as [| e pre [He Hexit] _ IH]; intros tr Hrun.
  - right. exists tr. auto.
  - cbn [app] in Hrun.
    inversion Hrun as [| e' main pool tr' c' Hrun' | e' g p1 p2 main tr' c' Hrun' Hc];
      subst.
    + left. exists (e :: pre). auto.
    + unfold after in Hrun'. rewrite Hexit in Hrun'.
      assert (Hl : launched env f e = []).
      { destruct e; try reflexivity. unfold before_Init in He.
        rewrite andb_false_r in He. discriminate He. }
      rewrite Hl in Hrun'. cbn [app] in Hrun'.
      destruct (IH _ Hrun') as [(left & -> & ->) | (tr'' & -> & Hrest)].
      * left. exists left. auto.
      * right. exists tr''. auto.
    + destruct p1; discriminate.
Qed.

(** The epochs of a run are a prefix of those of the main goroutine, as long
    as no goroutine calls [SetEpoch]. *)
Lemma run_epochs (c c' : config) (tr : list event) :
  run env f c tr c' ->
  Forall (fun g => epochs g = []) (snd c) ->
  epochs tr `prefix_of` epochs (fst c).
Proof.
  assert (Hbody : forall g, epochs (body env f g) = []).
  { intros [| | | | p i | cb id p i resp]; try reflexivity.
    - unfold body, startHTTP. destruct (serve_result env); reflexivity.
    - unfold body, deliver. rewrite epochs_app.
      assert (Hloop : forall l, epochs (deliver_loop cb id l) = []).
      { induction l as [| r l IH]; [reflexivity |]. cbn [deliver_loop].
        destruct (negb _); [exact IH |]. destruct cb; exact IH. }
      rewrite Hloop. destruct resp; [destruct cb |]; reflexivity. }
  induction 1 as [c | e main pool tr c' Hrun IH
                    | e g p1 p2 main tr c' Hrun IH];
    cbn [fst snd]; intros Hpool.
  - apply prefix_nil.
  - unfold after in *. destruct (is_exit e) eqn:Hexit.
    + apply run_halted in Hrun as [-> _].
      destruct e; try discriminate; apply prefix_nil.
    + cbn [fst snd] in IH.
      assert (Hpool' : Forall (fun g => epochs g = []) (pool ++ launched env f e)).
      { apply Forall_app. split; [exact Hpool |].
        destruct e; cbn; auto. }
      specialize (IH Hpool').
      change (e :: tr) with ([e] ++ tr)%list.
      change (e :: main) with ([e] ++ main)%list.
      rewrite !epochs_app. apply prefix_app. exact IH.
  - apply Forall_app in Hpool as [Hp1 Hp2].
    inversion Hp2 as [| ? ? Heg Hp2']; subst.
    assert (He : epochs [e] = [] /\ epochs g = []).
    { change (e :: g) with ([e] ++ g)%list in Heg. rewrite epochs_app in Heg.
      apply app_eq_nil in Heg. exact Heg. }
    destruct He as [He Hg].
    change (e :: tr) with ([e] ++ tr)%list. rewrite epochs_app, He. cbn [app].
    unfold after in *. destruct (is_exit e).
    + apply run_halted in Hrun as [-> _]. apply prefix_nil.
    + apply IH. cbn [snd]. apply Forall_app. split; auto.
Qed.

End RunFacts.

(** ** Epochs and initialisation over whole runs *)

Section ProcessFacts.

Context {golib : GoLib} {etcdutil : EtcdUtil}.
Variable env : Env.

Lemma main_epochs (f : framework) (s : Etcd.store) :
  epochs (main_events env f s) `prefix_of`
    (fst (epoch_fetch env) :: epoch_updates env).
Proof.
  unfold main_events.
  destruct (Start_shape env f s)
    as (acq & Hacq & [(Hout & Htr) | (id & post & Htr & _ & Hepochs)]);
    cbn zeta in *; rewrite Htr, !epochs_app, (acquisition_epochs acq Hacq).
  - apply prefix_nil.
  - cbn [app]. change (epochs [GetTask id; SetTaskID id; Init id]) with (@nil Z).
    cbn [app]. destruct (fst (Start env (boot f s))).
    + destruct Hepochs as [-> _]. reflexivity.
    + rewrite Hepochs. apply prefix_nil.
    + rewrite Hepochs. apply prefix_nil.
Qed.

(** C4, as the code has it. In every run of the process, at every moment,
    the epochs handed to [Task.SetEpoch] so far are an initial stretch of:
    the epoch returned by the fetch, then the values received from the
    channel in order; this holds whatever is published. [Start] compares
    nothing: the sequence delivered never goes down provided that sequence
    of published epochs never goes down. *)
Theorem delivered_epochs_follow_published (f : framework) (s : Etcd.store)
        (tr : list event) (c : config) :
  Start_run env f s tr c ->
  epochs tr `prefix_of` (fst (epoch_fetch env) :: epoch_updates env)
  /\ (non_decreasing (fst (epoch_fetch env) :: epoch_updates env) ->
      non_decreasing (epochs tr)).
Proof.
  intros Hrun.
  assert (Hpre : epochs tr `prefix_of` (fst (epoch_fetch env) :: epoch_updates env)).
  { etransitivity; [| apply main_epochs].
    apply (run_epochs env f _ _ _ Hrun). constructor. }
  split; [exact Hpre |]. intros Hpub.
  destruct Hpre as [k Hk]. unfold non_decreasing in *. rewrite Hk in Hpub.
  eapply StronglySorted_app_1_l, Hpub.
Qed.

Lemma body_after_Init (f : framework) (g : goroutine) :
  Forall (fun e => after_Init e = true) (body env f g).
Proof.
  destruct g as [| | | | p i | cb id p i resp];
    [constructor | constructor | | constructor | constructor |].
  - unfold body, startHTTP. destruct (serve_result env); repeat constructor.
  - unfold body, deliver. apply Forall_app. split.
    + destruct resp; [destruct cb |]; repeat constructor.
    + induction (received env p i) as [| r l IH]; [constructor |].
      cbn [deliver_loop]. destruct (negb _); [exact IH |].
      destruct cb; repeat constructor; exact IH.
Qed.

Lemma acquisition_before_Init (evs : list event) :
  Forall (fun e => is_acquisition e = true) evs ->
  Forall (fun e => before_Init e = true /\ is_exit e = false) evs.
Proof.
  intros Hall. eapply Forall_impl; [exact Hall |].
  intros [] H; try discriminate; auto.
  destruct sorted, recursive; try discriminate; auto.
Qed.

(** C9, as the code has it. At every moment of every run of [Start], either
    [Task.Init] has not been called yet, and then nothing that needs it has
    happened: no epoch fetch, no watch, no data server, no goroutine, no call
    of [SetEpoch], [ParentMetaReady] or [ChildMetaReady]; or it has been
    called exactly once, what came before it was free of all those, and no
    step of slot acquisition comes after it. The first case can be final only
    when slot acquisition ended in its fatal exit: a run whose main goroutine
    has nothing left to do and that did not end that way has called [Init]
    exactly once. *)
Theorem Init_once_after_acquisition_before_the_rest (f : framework)
        (s : Etcd.store) (tr : list event) (c : config) :
  Start_run env f s tr c ->
  (Forall (fun e => before_Init e = true) tr
   /\ (fst c = [] -> In occupy_failed tr))
  \/ (exists pre id post,
        tr = (pre ++ Init id :: post)%list
        /\ Forall (fun e => before_Init e = true) pre
        /\ Forall (fun e => after_Init e = true) post).
Proof.
  unfold Start_run, main_events. intros Hrun.
  destruct (Start_shape env f s)
    as (acq & Hacq & [(_ & Htr) | (id & post & Htr & Hpost & _)]);
    cbn zeta in Htr; rewrite Htr in Hrun; clear Htr;
    apply acquisition_before_Init in Hacq.
  - left.
    destruct (run_prefix env f acq [occupy_failed] tr c Hacq Hrun)
      as [(rest & -> & ->) | (tr' & -> & Hrest)].
    + apply Forall_app in Hacq as [Hacq _]. split.
      * eapply Forall_impl; [exact Hacq |]. cbn. tauto.
      * cbn [fst]. intros Hnil. apply app_eq_nil in Hnil as [_ [=]].
    + assert (Hacq' : Forall (fun e => before_Init e = true) acq)
        by (eapply Forall_impl; [exact Hacq |]; cbn; tauto).
      inversion Hrest as [| e main pool tr'' c' Hrun' | e g p1 p2 main tr'' c' Hrun' Hc];
        subst.
      * split; [rewrite app_nil_r; exact Hacq' |].
        cbn [fst]. discriminate.
      * apply run_halted in Hrun' as [-> ->]. split.
        -- apply Forall_app. split; [exact Hacq' | repeat constructor].
        -- intros _. apply in_app_iff. right. left. reflexivity.
      * destruct p1; discriminate.
  - assert (Hpre : Forall (fun e => before_Init e = true /\ is_exit e = false)
                          (acq ++ [GetTask id; SetTaskID id])).
    { apply Forall_app. split; [exact Hacq | repeat constructor]. }
    replace (acq ++ [GetTask id; SetTaskID id; Init id] ++ post)%list
      with ((acq ++ [GetTask id; SetTaskID id]) ++ Init id :: post)%list in Hrun
      by (rewrite <- app_assoc; reflexivity).
    destruct (run_prefix env f _ _ tr c Hpre Hrun)
      as [(rest & Heq & ->) | (tr' & -> & Hrest)].
    + left. rewrite Heq in Hpre. apply Forall_app in Hpre as [Hpre _]. split.
      * eapply Forall_impl; [exact Hpre |]. cbn. tauto.
      * cbn [fst]. intros Hnil. apply app_eq_nil in Hnil as [_ [=]].
    + assert (Hpre' : Forall (fun e => before_Init e = true)
                             (acq ++ [GetTask id; SetTaskID id]))
        by (eapply Forall_impl; [exact Hpre |]; cbn; tauto).
      inversion Hrest as [| e main pool tr'' c' Hrun' | e g p1 p2 main tr'' c' Hrun' Hc];
        subst.
      * left. split; [rewrite app_nil_r; exact Hpre' |].
        cbn [fst]. discriminate.
      * right. exists (acq ++ [GetTask id; SetTaskID id])%list, id, tr''.
        split; [reflexivity |]. split; [exact Hpre' |].
        eapply (run_events env f _ _ _ _ (body_after_Init f) Hrun');
          cbn; [exact Hpost | constructor].
      * destruct p1; discriminate.
Qed.

End ProcessFacts.

(** ** The examples, evaluated *)

Section Examples.

#[local] Existing Instance decimal_lib.
#[local] Existing Instance example_layout.

(** Runs the main goroutine to its end, launching goroutines on the way and
    scheduling none. *)
Ltac main_to_end :=
  repeat (apply run_main;
          cbn [after is_exit launched body deliver deliver_loop startHTTP
               serve_result received app]).

(** The main goroutine of the node that finds the directory of [two_slots],
    under a controller that raises the epoch twice. *)
Example main_events_forward :
  main_events env_forward node two_slots =
    [NewClient ["http://127.0.0.1:4001"]; EtcdGet "/job/tasks" true true;
     EtcdTryOccupyTask 0 "10.0.0.2:2000" true;
     GetTask 0; SetTaskID 0; Init 0; GetAndWatchEpoch "job";
     Go go_heartbeat; Go go_detectAndReportFailures;
     GetParents 0; GetChildren 0; EtcdGet "/job/parentMeta/1" false false;
     Go (go_Watch "/job/parentMeta/1" 1);
     Go (go_deliver cbChildMetaReady 1 "/job/parentMeta/1" 1 None);
     Go go_startHTTP; Go go_dataResponseReceiver;
     Printf "Start the work, task: %d\n"; SetEpoch 0; SetEpoch 1; SetEpoch 2;
     ReleaseResources].
Proof. vm_compute. reflexivity. Qed.

(** That main goroutine run to its end, no goroutine scheduled yet. *)
Example forward_run :
  Start_run env_forward node two_slots
            (main_events env_forward node two_slots) ([], idle_pool).
Proof.
  unfold Start_run. rewrite main_events_forward.
  main_to_end. apply run_pause.
Defined.

(** A stray entry is logged and passed over, a taken slot is refused, the
    free one is claimed. *)
Example occupyTask_corrupted_slots :
  let r := occupyTask (boot node corrupted_slots) in
  fst r = Ret (1, None)
  /\ trace (snd r) =
       [EtcdGet "/job/tasks" true true; Printf corrupted_warning;
        EtcdTryOccupyTask 0 "10.0.0.2:2000" false;
        EtcdTryOccupyTask 1 "10.0.0.2:2000" true]
  /\ Value <$> Etcd.nodes (etcd (snd r)) !! "/job/tasks/1"
     = Some "10.0.0.2:2000".
Proof. vm_compute. auto. Qed.

Example occupyTask_all_taken :
  fst (occupyTask (boot node all_taken)) = Ret (0, Some no_unassigned_task).
Proof. vm_compute. reflexivity. Qed.

(** The baseline exists: the watch starts right after the index of the
    read, and the goroutine is handed the value read. *)
Example watchAll_published :
  exists resp,
    Etcd.Get published "/job/childMeta/0" false false = inl resp
    /\ EtcdIndex resp = 4 /\ Value (RNode resp) = "meta0"
    /\ trace (snd (watchAll roleParent [0] (boot node published))) =
         [EtcdGet "/job/childMeta/0" false false;
          Go (go_Watch "/job/childMeta/0" 5);
          Go (go_deliver cbParentMetaReady 0 "/job/childMeta/0" 5 (Some resp))].
Proof. eexists. vm_compute. auto. Qed.

(** At the last index the sum wraps to 0. *)
Example watchAll_last_index :
  watches (trace (snd (watchAll roleParent [0] (boot node last_index))))
  = [("/job/childMeta/0", 0)].
Proof. vm_compute. reflexivity. Qed.

(** Baseline first, then the writes; deletions and expiries are passed
    over. *)
Example deliver_baseline_then_writes :
  callbacks
    (deliver cbParentMetaReady 0
       (Some (event_on "get" "/job/childMeta/0" "v0" 4))
       [event_on "set" "/job/childMeta/0" "v1" 5;
        event_on "delete" "/job/childMeta/0" "" 6;
        event_on "set" "/job/childMeta/0" "v2" 7;
        event_on "expire" "/job/childMeta/0" "" 8])
  = [ParentMetaReady 0 "v0"; ParentMetaReady 0 "v1"; ParentMetaReady 0 "v2"].
Proof. reflexivity. Qed.

(** Two writes reach the bucket only with [Sync]. *)
Example checkpoint_written :
  let '(s1, f1) := Store.Writes bucket_before checkpoint [[x63]; [x64; x65]] in
  let '(s2, _, err) := Store.Sync s1 f1 in
  Store.objects s1 !! ("bucket", "ckpt") = Some [x61; x62]
  /\ Store.puts s1 = []
  /\ Store.objects s2 !! ("bucket", "ckpt") = Some [x61; x62; x63; x64; x65]
  /\ length (Store.puts s2) = 1%nat
  /\ err = None.
Proof. vm_compute. auto. Qed.

(** C4 fails as stated: when the controller publishes epoch 2 and then
    epoch 1, the task is handed 2 and then 1. *)
Lemma epochs_delivered_can_go_down :
  epochs (main_events env_backwards node two_slots) = [2; 1]
  /\ ~ non_decreasing (epochs (main_events env_backwards node two_slots)).
Proof.
  assert (H : epochs (main_events env_backwards node two_slots) = [2; 1])
    by (vm_compute; reflexivity).
  rewrite H. split; [reflexivity |].
  intros Hsorted. inversion Hsorted as [| ? ? _ Hle]; subst.
  inversion Hle as [| ? ? H21 _]; subst. lia.
Qed.

(** The statement on delivered epochs, at the complete run of the main
    goroutine under a controller that only raises the epoch. *)
Lemma delivered_epochs_follow_published_witness :
  Start_run env_forward node two_slots
            (main_events env_forward node two_slots) ([], idle_pool)
  /\ non_decreasing (fst (epoch_fetch env_forward) :: epoch_updates env_forward)
  /\ epochs (main_events env_forward node two_slots)
       `prefix_of` (fst (epoch_fetch env_forward) :: epoch_updates env_forward)
  /\ non_decreasing (epochs (main_events env_forward node two_slots)).
Proof.
  assert (Hpub : non_decreasing
                   (fst (epoch_fetch env_forward) :: epoch_updates env_forward)).
  { cbn. unfold non_decreasing. repeat constructor; lia. }
  split; [exact forward_run |]. split; [exact Hpub |].
  destruct (delivered_epochs_follow_published env_forward node two_slots
              _ _ forward_run) as [Hprefix Hsorted].
  split; [exact Hprefix | exact (Hsorted Hpub)].
Defined.

(** C9 fails as stated: with every slot taken and [standby] failing, the
    run ends in the fatal exit of slot acquisition, and [Task.Init] has not
    been called. *)
Lemma Init_not_called_when_acquisition_fails :
  main_events env_standby_fails node all_taken =
    [NewClient ["http://127.0.0.1:4001"]; EtcdGet "/job/tasks" true true;
     EtcdTryOccupyTask 0 "10.0.0.2:2000" false;
     EtcdTryOccupyTask 1 "10.0.0.2:2000" false;
     Standby; Fatalf "occupyTask failed: %v"]
  /\ Start_run env_standby_fails node all_taken
               (main_events env_standby_fails node all_taken) ([], [])
  /\ List.filter is_Init (main_events env_standby_fails node all_taken) = [].
Proof.
  assert (H : main_events env_standby_fails node all_taken =
              [NewClient ["http://127.0.0.1:4001"]; EtcdGet "/job/tasks" true true;
               EtcdTryOccupyTask 0 "10.0.0.2:2000" false;
               EtcdTryOccupyTask 1 "10.0.0.2:2000" false;
               Standby; Fatalf "occupyTask failed: %v"])
    by (vm_compute; reflexivity).
  split; [exact H |]. unfold Start_run. rewrite H. split; [| reflexivity].
  main_to_end. apply run_pause.
Qed.

(** The statement on [Task.Init], at the same run. *)
Lemma Init_once_witness :
  Start_run env_forward node two_slots
            (main_events env_forward node two_slots) ([], idle_pool)
  /\ ((Forall (fun e => before_Init e = true)
              (main_events env_forward node two_slots)
       /\ (fst (([], idle_pool) : config) = [] ->
           In occupy_failed (main_events env_forward node two_slots)))
      \/ (exists pre id post,
            main_events env_forward node two_slots = (pre ++ Init id :: post)%list
            /\ Forall (fun e => before_Init e = true) pre
            /\ Forall (fun e => after_Init e = true) post)).
Proof.
  split; [exact forward_run |].
  exact (Init_once_after_acquisition_before_the_rest
           env_forward node two_slots _ _ forward_run).
Defined.

(** The statement on baseline errors, at a store that answers every read
    with an internal error: the set-up of the first watch is fatal. *)
Lemma watchAll_fatal_witness :
  roleParent <> roleNone
  /\ fst (watchAll roleParent [0; 1] (boot node broken_store)) = Exited.
Proof.
  assert (H : roleParent <> roleNone) by discriminate.
  split; [exact H |].
  destruct (watchAll_fatal_unless_key_not_found
              roleParent [0; 1] (boot node broken_store) H) as [[_ Hfatal] _].
  apply Hfatal. exists 0, (EtcdError 300 "Raft Internal Error").
  split; [left; reflexivity |]. split; vm_compute; reflexivity.
Defined.

(** C1 fails on the code: the node takes slot 0 and watches the metadata of
    its child, task 1, whose key does not exist yet; task 1 then writes
    "ready" to the key twice. There is a run in which [ChildMetaReady] is
    called for task 1 with "ready" two times. *)
Theorem same_meta_delivered_twice :
  let tr := (main_events env_twice node two_slots
             ++ body env_twice node
                  (go_deliver cbChildMetaReady 1 "/job/parentMeta/1" 1 None))%list in
  In (Go (go_deliver cbChildMetaReady 1 "/job/parentMeta/1" 1 None))
     (main_events env_twice node two_slots)
  /\ map Value (map RNode
        (Etcd.Watch (Etcd.history written_twice) (Etcd.index claimed)
                    "/job/parentMeta/1" 1)) = ["ready"; "ready"]
  /\ (exists c, Start_run env_twice node two_slots tr c)
  /\ metas cbChildMetaReady 1 tr = ["ready"; "ready"].
Proof.
  cbn zeta.
  assert (Hmain : main_events env_twice node two_slots =
    [NewClient ["http://127.0.0.1:4001"]; EtcdGet "/job/tasks" true true;
     EtcdTryOccupyTask 0 "10.0.0.2:2000" true;
     GetTask 0; SetTaskID 0; Init 0; GetAndWatchEpoch "job";
     Go go_heartbeat; Go go_detectAndReportFailures;
     GetParents 0; GetChildren 0; EtcdGet "/job/parentMeta/1" false false;
     Go (go_Watch "/job/parentMeta/1" 1);
     Go (go_deliver cbChildMetaReady 1 "/job/parentMeta/1" 1 None);
     Go go_startHTTP; Go go_dataResponseReceiver;
     Printf "Start the work, task: %d\n"; SetEpoch 0; ReleaseResources])
    by (vm_compute; reflexivity).
  assert (Hbody : body env_twice node
                    (go_deliver cbChildMetaReady 1 "/job/parentMeta/1" 1 None)
                  = [Printf "task:"; ChildMetaReady 1 "ready";
                     Printf "task:"; ChildMetaReady 1 "ready"])
    by (vm_compute; reflexivity).
  split; [rewrite Hmain; cbn; tauto |].
  split; [vm_compute; reflexivity |].
  split; [| rewrite Hmain, Hbody; vm_compute; reflexivity].
  eexists. unfold Start_run. rewrite Hmain. cbn [app].
  repeat (apply run_main; cbn [after is_exit launched app]).
  rewrite Hbody.
  do 4 (eapply (run_goroutine _ _ _ _ [[]; []; []]); cbn [after is_exit app]).
  apply run_pause.
Qed.

End Examples.

(** * Further properties *)

(** ** The checkpoint file: reading, reopening, repeated syncs *)

Section StoreMore.

Import Store.

Lemma take_plus {A : Type} (l : list A) (n m : nat) :
  take (n + m) l = (take n l ++ take m (drop n l))%list.
Proof.
  revert l. induction n as [| n IH]; intros [| x l]; cbn;
    rewrite ?take_nil; try reflexivity.
  f_equal. apply IH.
Qed.

(** [Buffer.Read] hands out the front of the contents and keeps the rest,
    whatever the offset inside the buffer is. *)
Lemma Buffer_Read_Bytes (b : Buffer) (n : nat) :
  fst (fst (snd (Buffer_Read b n))) = take n (Bytes b)
  /\ snd (fst (snd (Buffer_Read b n))) = length (take n (Bytes b))
  /\ Bytes (fst (Buffer_Read b n)) = drop n (Bytes b).
Proof.
  unfold Buffer_Read.
  destruct (Nat.eqb_spec (Len b) 0) as [Hz | Hnz]; cbn [fst snd].
  - rewrite (Bytes_empty b Hz), take_nil, drop_nil. auto.
  - split; [reflexivity |]. split; [reflexivity |].
    unfold Bytes at 1. cbn [buf off].
    rewrite <- drop_drop. fold (Bytes b).
    rewrite length_take.
    destruct (Nat.le_ge_cases n (length (Bytes b))) as [Hle | Hge].
    + rewrite Nat.min_l by exact Hle. reflexivity.
    + rewrite Nat.min_r by exact Hge. rewrite !drop_ge; auto.
Qed.

Lemma Read_run (s : S3) (f : S3File) (n : nat) :
  Read s f n =
    (s, mkS3File (Bucket f) (keyPath f) (fst (Buffer_Read (fbuf f) n)),
     snd (Buffer_Read (fbuf f) n)).
Proof. unfold Read. destruct (Buffer_Read (fbuf f) n). reflexivity. Qed.

Lemma Reads_run (ns : list nat) : forall (s : S3) (f : S3File),
  fst (fst (Reads s f ns)) = s
  /\ Bucket (snd (fst (Reads s f ns))) = Bucket f
  /\ keyPath (snd (fst (Reads s f ns))) = keyPath f
  /\ snd (Reads s f ns) = take (asked ns) (Bytes (fbuf f))
  /\ Bytes (fbuf (snd (fst (Reads s f ns)))) = drop (asked ns) (Bytes (fbuf f)).
Proof.
  induction ns as [| n ns IH]; intros s f; cbn [Reads asked foldr].
  - rewrite drop_0. auto.
  - rewrite Read_run.
    destruct (Buffer_Read_Bytes (fbuf f) n) as (Hdata & _ & Hrest).
    destruct (Buffer_Read (fbuf f) n) as [b' [[data k] err]].
    cbn [fst snd] in *.
    specialize (IH s (mkS3File (Bucket f) (keyPath f) b')).
    destruct (Reads s (mkS3File (Bucket f) (keyPath f) b') ns) as [[s' f'] rest].
    cbn [fst snd Bucket keyPath fbuf] in *.
    destruct IH as (-> & -> & -> & -> & ->). fold (asked ns).
    rewrite Hdata, Hrest, drop_drop, take_plus. repeat split; auto.
Qed.

(** X3. Whatever the lengths of the slices, a run of [Read] calls copies
    out the front of the buffer's contents, as many bytes as were asked for
    or all of them when fewer are left, and keeps the rest: what was read
    followed by what is left is what the buffer held, nothing lost, nothing
    repeated. Reading sends nothing to the object store. *)
Theorem Reads_split_the_contents (s : Store.S3) (f : Store.S3File)
        (ns : list nat) :
  let '(s', f', data) := Reads s f ns in
  s' = s
  /\ data = take (asked ns) (Bytes (fbuf f))
  /\ Bytes (fbuf f') = drop (asked ns) (Bytes (fbuf f))
  /\ (data ++ Bytes (fbuf f'))%list = Bytes (fbuf f).
Proof.
  destruct (Reads_run ns s f) as (Hs & _ & _ & Hdata & Hrest).
  destruct (Reads s f ns) as [[s' f'] data]. cbn [fst snd] in *.
  rewrite Hdata, Hrest, take_drop. auto.
Qed.

(** X4. [Sync] uploads what is unread, not what the file ever held: after
    reads and then writes, the one put request carries the contents without
    the bytes already read, followed by the bytes written. A file that was
    read from and then synced replaces its object with the unread rest. *)
Theorem Sync_uploads_the_unread (s : Store.S3) (f : Store.S3File)
        (ns : list nat) (ps : list (list byte)) :
  let '(s1, f1, _) := Reads s f ns in
  let '(s2, f2) := Writes s1 f1 ps in
  let '(s3, _, err) := Sync s2 f2 in
  let uploaded := (drop (asked ns) (Bytes (fbuf f)) ++ concat ps)%list in
  puts s3 = (puts s ++ [mkPut (Bucket f) (keyPath f) uploaded
                              "binary" BucketOwnerFull])%list
  /\ if online s
     then err = None /\ objects s3 !! (Bucket f, keyPath f) = Some uploaded
     else err <> None /\ objects s3 = objects s.
Proof.
  destruct (Reads_run ns s f) as (Hs1 & Hb1 & Hk1 & _ & Hrest).
  destruct (Reads s f ns) as [[s1 f1] data]. cbn [fst snd] in *. subst s1.
  destruct (Writes_run ps s f1) as (Hs2 & Hb2 & Hk2 & Hbytes).
  destruct (Writes s f1 ps) as [s2 f2]. cbn [fst snd] in *. subst s2.
  unfold Sync, Bucket_Put. rewrite Hb2, Hk2, Hbytes, Hb1, Hk1, Hrest.
  destruct (online s); cbn.
  - split; [reflexivity |]. split; [reflexivity |]. apply lookup_insert_eq.
  - split; [reflexivity |]. split; [discriminate | reflexivity].
Qed.

(** X5. What [Sync] uploaded is what [Open] finds: when the store answers,
    opening the file's bucket and key after a [Sync] gives a file on the
    same bucket and key whose buffer holds what the synced file had
    unread. *)
Theorem Sync_then_Open (s : Store.S3) (f : Store.S3File) :
  online s = true ->
  let '(s', _, err) := Sync s f in
  err = None
  /\ exists f',
      Open s' (Bucket f) (keyPath f) = inl f'
      /\ Bucket f' = Bucket f /\ keyPath f' = keyPath f
      /\ Bytes (fbuf f') = Bytes (fbuf f).
Proof.
  intros Hon. unfold Sync, Bucket_Put. rewrite Hon.
  split; [reflexivity |].
  unfold Open, Bucket_Get. cbn [online objects].
  rewrite lookup_insert_eq. eexists. split; [reflexivity |].
  cbn. unfold Bytes at 1. cbn. rewrite drop_0. auto.
Qed.

(** X6. [Sync] does not empty the buffer: writing, syncing, writing again
    and syncing again sends two put requests, the second carrying
    everything the first carried followed by the later writes. *)
Theorem Sync_keeps_the_buffer (s : Store.S3) (f : Store.S3File)
        (ps1 ps2 : list (list byte)) :
  let '(s1, f1) := Writes s f ps1 in
  let '(s2, f2, _) := Sync s1 f1 in
  let '(s3, f3) := Writes s2 f2 ps2 in
  let '(s4, _, _) := Sync s3 f3 in
  let first := (Bytes (fbuf f) ++ concat ps1)%list in
  puts s4 = (puts s ++ [mkPut (Bucket f) (keyPath f) first
                              "binary" BucketOwnerFull;
                        mkPut (Bucket f) (keyPath f) (first ++ concat ps2)
                              "binary" BucketOwnerFull])%list
  /\ if online s
     then objects s4 !! (Bucket f, keyPath f) = Some (first ++ concat ps2)%list
     else objects s4 = objects s.
Proof.
  destruct (Writes_run ps1 s f) as (Hs1 & Hb1 & Hk1 & Hbytes1).
  destruct (Writes s f ps1) as [s1 f1]. cbn [fst snd] in *. subst s1.
  destruct (Sync s f1) as [[s2 f2] err2] eqn:Hsync.
  assert (Hf2 : f2 = f1 /\ online s2 = online s
                /\ puts s2 = (puts s ++ [mkPut (Bucket f) (keyPath f)
                                           (Bytes (fbuf f) ++ concat ps1)
                                           "binary" BucketOwnerFull])%list).
  { unfold Sync, Bucket_Put in Hsync. rewrite Hb1, Hk1, Hbytes1 in Hsync.
    destruct (online s); injection Hsync as <- <- _; auto. }
  assert (Hobj2 : online s = false -> objects s2 = objects s).
  { intros Hoff. unfold Sync, Bucket_Put in Hsync. rewrite Hoff in Hsync.
    injection Hsync as <- _ _. reflexivity. }
  destruct Hf2 as (-> & Hon2 & Hputs2). clear Hsync.
  destruct (Writes_run ps2 s2 f1) as (Hs3 & Hb3 & Hk3 & Hbytes3).
  destruct (Writes s2 f1 ps2) as [s3 f3]. cbn [fst snd] in *. subst s3.
  unfold Sync, Bucket_Put.
  rewrite Hb3, Hk3, Hbytes3, Hb1, Hk1, Hbytes1, Hon2, Hputs2.
  destruct (online s); cbn; rewrite <- app_assoc; cbn.
  - split; [reflexivity |]. apply lookup_insert_eq.
  - split; [reflexivity | auto].
Qed.

(** X7. [Sync] writes one object only: every object under another bucket or
    another key is as it was, and so is whether the store answers. *)
Theorem Sync_leaves_other_objects (s : Store.S3) (f : Store.S3File)
        (bkt key : string) :
  (bkt, key) <> (Bucket f, keyPath f) ->
  let '(s', _, _) := Sync s f in
  objects s' !! (bkt, key) = objects s !! (bkt, key)
  /\ online s' = online s.
Proof.
  intros Hother. unfold Sync, Bucket_Put.
  destruct (online s); cbn; [| auto].
  split; [| reflexivity]. apply lookup_insert_ne. congruence.
Qed.

End StoreMore.

(** ** [watchAll]: what it leaves behind *)

Section WatchMore.

Context {golib : GoLib} {etcdutil : EtcdUtil}.

Lemma watch_neighbors_stops (who : taskRole) (taskIDs : list Z) :
  forall (st : state) (stops' : list chan),
  fst (watch_neighbors who taskIDs st) = Ret stops' ->
  stops' = replicate (length taskIDs) (mkChan 1).
Proof.
  destruct (decide (who = roleNone)) as [-> | Hwho].
  - intros st stops'. rewrite watch_neighbors_none.
    destruct taskIDs; cbn; [intros [= <-]; reflexivity | discriminate].
  - induction taskIDs as [| id rest IH]; intros st stops'.
    + cbn. intros [= <-]. reflexivity.
    + cbn [watch_neighbors]. rewrite run_bind, watch_neighbor_run by assumption.
      destruct (is_fatal_answer _); [discriminate |].
      rewrite run_bind.
      match goal with
      | |- context [watch_neighbors who rest ?a] =>
          specialize (IH a);
          destruct (watch_neighbors who rest a) as [[tl | |] st2]
      end; cbn; try discriminate.
      intros [= <-]. rewrite (IH tl eq_refl). reflexivity.
Qed.

Lemma watch_neighbors_frame (who : taskRole) (taskIDs : list Z) (st : state) :
  fw (snd (watch_neighbors who taskIDs st)) = fw st
  /\ etcd (snd (watch_neighbors who taskIDs st)) = etcd st.
Proof.
  destruct (decide (who = roleNone)) as [-> | Hwho].
  - rewrite watch_neighbors_none. destruct taskIDs; auto.
  - destruct (watch_neighbors_run who taskIDs Hwho st) as (Hf & He & _). auto.
Qed.

(** X8. All [watchAll] leaves behind is in [f.stops]: when it returns, it
    has appended one stop channel of capacity 1 per neighbour, after the
    channels that were there; when it ends the process (a failed read, or a
    role that is neither parent nor child with a neighbour to watch) the
    list is as it was. No other field of the framework changes, and nothing
    is written to the coordination store. *)
Theorem watchAll_appends_stops (who : taskRole) (taskIDs : list Z) (st : state) :
  let r := watchAll who taskIDs st in
  etcd (snd r) = etcd st
  /\ with_stops [] (fw (snd r)) = with_stops [] (fw st)
  /\ stops (fw (snd r))
     = match fst r with
       | Ret _ => (stops (fw st) ++ replicate (length taskIDs) (mkChan 1))%list
       | _ => stops (fw st)
       end.
Proof.
  cbn zeta. unfold watchAll. rewrite run_bind.
  destruct (watch_neighbors_frame who taskIDs st) as [Hf He].
  pose proof (watch_neighbors_stops who taskIDs st) as Hstops.
  destruct (watch_neighbors who taskIDs st) as [[stops' | |] st1];
    cbn [fst snd] in *; rewrite ?Hf, ?He; auto.
  rewrite (Hstops stops' eq_refl). cbn. rewrite Hf, He. auto.
Qed.

Lemma neighbor_events_launches (st : state) (who : taskRole) (ids : list Z)
      (id : Z) :
  In id ids ->
  is_fatal_answer (read_neighbor st who id) = false ->
  Forall (launches_for (watch_callback who) ids) (neighbor_events st who id).
Proof.
  intros Hin Hok. unfold neighbor_events. rewrite Hok.
  repeat constructor; cbn; auto.
Qed.

(** A watch set-up launches delivery goroutines for its own callback and
    its own neighbours only, and does nothing else but read and watch. *)
Lemma watchAll_launches (who : taskRole) (taskIDs : list Z) (st : state) :
  who <> roleNone ->
  exists out f' evs,
    watchAll who taskIDs st = (out, mkState f' (etcd st) (trace st ++ evs))
    /\ with_stops [] f' = with_stops [] (fw st)
    /\ ((out = Ret tt
         /\ Forall (launches_for (watch_callback who) taskIDs) evs)
        \/ (out = Exited
            /\ exists evs',
                evs = (evs' ++ [Fatalf "etcd get(%s) failed: %v"])%list
                /\ Forall (launches_for (watch_callback who) taskIDs) evs')).
Proof.
  intros Hwho.
  destruct (watchAll_run who taskIDs st) as (Htr & Hetcd & Hfw & Hout).
  destruct (watch_neighbors_run who taskIDs Hwho st)
    as (Hf & He & reached & Hevs & Hcases).
  destruct (watchAll who taskIDs st) as [out st'] eqn:Hrun. cbn [fst snd] in *.
  exists out, (fw st'), (flat_map (neighbor_events st who) reached).
  split; [| split].
  - f_equal. rewrite (state_eta st'), Htr, Hetcd, He, Hevs. reflexivity.
  - rewrite Hfw, Hf. reflexivity.
  - assert (Hsub : forall ids,
               (forall i, In i ids -> In i taskIDs) ->
               Forall (fun i => is_fatal_answer (read_neighbor st who i) = false) ids ->
               Forall (launches_for (watch_callback who) taskIDs)
                      (flat_map (neighbor_events st who) ids)).
    { intros ids Hin Hok. apply Forall_flat_map.
      rewrite List.Forall_forall in *. intros i Hi.
      apply neighbor_events_launches; auto. }
    destruct Hcases as [(stops' & Hr & -> & Hall)
                       | (Hr & pre & id & post & -> & -> & Hid & Hpre)];
      rewrite Hr in Hout.
    + left. split; [exact Hout |]. apply Hsub; auto.
    + right. split; [exact Hout |].
      exists (flat_map (neighbor_events st who) pre ++
              [EtcdGet (watch_path who (name (fw st)) id) false false])%list.
      split.
      * rewrite flat_map_app. cbn [flat_map]. rewrite app_nil_r.
        unfold neighbor_events at 2. rewrite Hid, <- app_assoc. reflexivity.
      * apply Forall_app. split.
        -- apply Hsub; [| exact Hpre]. intros i Hi. apply in_app_iff. auto.
        -- repeat constructor.
Qed.

End WatchMore.

(** ** [Start]: how it ends *)

Section StartMore.

Context {golib : GoLib} {etcdutil : EtcdUtil}.
Variable env : Env.

Lemma last_default {A : Type} (x : A) (l : list A) (d d' : A) :
  List.last (x :: l) d = List.last (x :: l) d'.
Proof.
  revert x. induction l as [| y l IH]; intros x; [reflexivity |].
  change (List.last (y :: l) d = List.last (y :: l) d'). apply IH.
Qed.

Lemma epoch_loop_state (updates : list Z) : forall st : state,
  exists f',
    epoch_loop updates st
    = (Ret tt, mkState f' (etcd st) (trace st ++ map SetEpoch updates))
    /\ with_epoch 0 f' = with_epoch 0 (fw st)
    /\ epoch f' = List.last updates (epoch (fw st)).
Proof.
  induction updates as [| e rest IH]; intros st.
  - exists (fw st). cbn [epoch_loop map]. mstep. rewrite app_nil_r, <- state_eta.
    auto.
  - cbn [epoch_loop map]. mstep.
    match goal with
    | |- context [epoch_loop rest ?a] =>
        destruct (IH a) as (f' & Hrun & Hsame & Hepoch)
    end.
    exists f'. rewrite Hrun. cbn [record etcd trace fw epoch with_epoch] in *.
    rewrite <- app_assoc. split; [reflexivity |]. split; [exact Hsame |].
    rewrite Hepoch. destruct rest as [| z rest]; [reflexivity |].
    change (List.last (e :: z :: rest) (epoch (fw st)))
      with (List.last (z :: rest) (epoch (fw st))).
    apply last_default.
Qed.

(** [occupyTask] returns, and its result is what the claims it made say. *)
Lemma occupyTask_acquires (st : state) :
  exists id err s' evs,
    occupyTask st = (Ret (id, err), mkState (fw st) s' (trace st ++ evs))
    /\ Forall (fun e => is_acquisition e = true) evs
    /\ match err with
       | None => exists refused,
                   claims evs = (failed refused ++ [(id, true)])%list
       | Some _ => id = 0 /\ exists refused, claims evs = failed refused
       end.
Proof.
  unfold occupyTask. mstep.
  destruct (Etcd.Get (etcd st) (MakeTaskDirPath (name (fw st))) true true)
    as [slots | err].
  - destruct (occupy_slots_run (Nodes (RNode slots))
                (record (EtcdGet (MakeTaskDirPath (name (fw st))) true true) st))
      as (evs & Htr & Hfw & Hacq & Hocc).
    destruct (occupy_slots _ _) as [out st'] eqn:Hrun. cbn [fst snd] in *.
    assert (Hst : (out, st')
                  = (out, mkState (fw st) (etcd st')
                            (trace st
                               ++ EtcdGet (MakeTaskDirPath (name (fw st)))
                                          true true :: evs))).
    { f_equal. rewrite (state_eta st'), Hfw, Htr, trace_record, <- app_assoc.
      reflexivity. }
    rewrite Hst.
    destruct Hocc as [(pre & i & post & _ & -> & Hcl & _) | (-> & Hcl & _)].
    + exists i, None, (etcd st'),
        (EtcdGet (MakeTaskDirPath (name (fw st))) true true :: evs).
      split; [reflexivity |]. split; [constructor; [reflexivity | exact Hacq] |].
      exists pre. exact Hcl.
    + exists 0, (Some no_unassigned_task), (etcd st'),
        (EtcdGet (MakeTaskDirPath (name (fw st))) true true :: evs).
      split; [reflexivity |]. split; [constructor; [reflexivity | exact Hacq] |].
      split; [reflexivity |]. eexists. exact Hcl.
  - exists 0, (Some err), (etcd st),
      [EtcdGet (MakeTaskDirPath (name (fw st))) true true].
    split; [reflexivity |]. split; [repeat constructor |].
    split; [reflexivity |]. exists []. reflexivity.
Qed.

(** The trace of the main goroutine, stretch by stretch, in each of the
    five ways [Start] can end. *)
Lemma Start_trace (f : framework) (s : Etcd.store) :
  let r := Start env (boot f s) in
  let e0 := fst (epoch_fetch env) in
  exists acq id,
    (Forall (fun e => is_acquisition e = true) acq /\ runs_as env acq id)
    /\ ((fst r = Exited /\ trace (snd r) = (acq ++ [occupy_failed])%list)
        \/ (fst r = Exited /\ snd (epoch_fetch env) <> None
            /\ trace (snd r) = (acq ++ init_events f id ++ [epoch_failed])%list)
        \/ (snd (epoch_fetch env) = None
            /\ exists evs1,
                Forall (launches_for cbParentMetaReady (parents env id e0)) evs1
                /\ ((fst r = Exited
                     /\ trace (snd r)
                        = (acq ++ init_events f id ++ liveness_events e0
                               ++ evs1 ++ [get_failed])%list)
                    \/ exists evs2,
                        Forall (launches_for cbChildMetaReady
                                             (children env id e0)) evs2
                        /\ ((fst r = Exited
                             /\ trace (snd r)
                                = (acq ++ init_events f id ++ liveness_events e0
                                       ++ evs1 ++ GetChildren e0 :: evs2
                                       ++ [get_failed])%list)
                            \/ (fst r = Ret tt
                                /\ trace (snd r)
                                   = (acq ++ init_events f id
                                          ++ liveness_events e0
                                          ++ evs1 ++ GetChildren e0 :: evs2
                                          ++ serving_events e0
                                          ++ map SetEpoch (epoch_updates env)
                                          ++ [ReleaseResources])%list
                                /\ taskID (fw (snd r)) = id
                                /\ epoch (fw (snd r))
                                   = List.last (epoch_updates env) e0
                                /\ name (fw (snd r)) = name f
                                /\ ln (fw (snd r)) = ln f))))).
Proof.
  cbn zeta.
  destruct (Start env (boot f s)) as [out st'] eqn:Hrun. cbn [fst snd].
  unfold Start, boot in Hrun. mstep_in Hrun.
  assert (exists st1, (if log f is None
                       then set_fw (with_log (Some stdoutLogger))
                       else mret tt) (mkState f s []) = (Ret tt, st1)
                      /\ trace st1 = []
                      /\ name (fw st1) = name f /\ ln (fw st1) = ln f)
    as (st1 & Hlog & Hst1 & Hname & Hln).
  { destruct (log f); eexists; repeat split; reflexivity. }
  rewrite run_bind, Hlog in Hrun. mstep_in Hrun.
  rewrite (run_bind occupyTask) in Hrun.
  match type of Hrun with
  | context [occupyTask ?a] =>
      destruct (occupyTask_acquires a)
        as (id & err & s' & evs & Hocc & Hacq & Hid)
  end.
  rewrite Hocc in Hrun. cbn [record fw etcd trace] in *. rewrite Hst1 in Hrun.
  cbn [app] in Hrun. mstep_in Hrun. clear Hocc Hlog.
  rewrite run_bind in Hrun.
  assert (Hstood : runs_as env (NewClient (etcdURLs f) :: evs ++ [Standby])
                           (standby_slot env)
                   \/ err = None).
  { destruct err as [e |]; [left | right; reflexivity].
    destruct Hid as (_ & refused & Hcl). right. split; [reflexivity |]. split.
    - exists refused.
      change (claims (evs ++ [Standby]) = failed refused).
      rewrite claims_app, Hcl. apply app_nil_r.
    - right. apply in_app_iff. right. left. reflexivity. }
  match type of Hrun with
  | context [match ?m ?st with _ => _ end] =>
      assert (exists acq id',
                 (Forall (fun e => is_acquisition e = true) acq
                  /\ runs_as env acq id')
                 /\ (m st = (Exited, mkState (fw st) (etcd st)
                                             (acq ++ [occupy_failed]))
                     \/ exists s'',
                         m st = (Ret tt, mkState (with_taskID id' (fw st))
                                                 s'' acq)))
        as (acq & id' & Hacq' & Hstandby)
  end.
  { destruct err as [e |];
      [destruct (standby_result env) as [e' |] eqn:Hsb;
       [rewrite (run_standby_failed _ _ _ _ Hsb)
       | rewrite (run_standby_obtained _ _ _ Hsb)] |]; mstep.
    - exists (NewClient (etcdURLs f) :: evs ++ [Standby])%list,
        (standby_slot env).
      split; [split |].
      + constructor; [reflexivity |]. apply Forall_app. split; [exact Hacq |].
        repeat constructor.
      + destruct Hstood as [H | [=]]. exact H.
      + left. reflexivity.
    - exists (NewClient (etcdURLs f) :: evs ++ [Standby])%list,
        (standby_slot env).
      split; [split |].
      + constructor; [reflexivity |]. apply Forall_app. split; [exact Hacq |].
        repeat constructor.
      + destruct Hstood as [H | [=]]. exact H.
      + right. eexists. reflexivity.
    - exists (NewClient (etcdURLs f) :: evs), id. split; [split |].
      + constructor; [reflexivity | exact Hacq].
      + left. exact Hid.
      + right. eexists. reflexivity. }
  clear Hstood Hid.
  exists acq, id'. split; [exact Hacq' |].
  destruct Hstandby as [Hstandby | (s'' & Hstandby)]; rewrite Hstandby in Hrun.
  { left. injection Hrun as <- <-. auto. }
  right. clear Hstandby. mstep_in Hrun.
  rewrite run_GetAndWatchEpoch in Hrun. rewrite Hname in Hrun.
  unfold init_events, liveness_events, serving_events, get_failed, epoch_failed.
  destruct (epoch_fetch env) as [e0 fetch_err]. cbn [fst snd].
  destruct fetch_err as [e |]; mstep_in Hrun.
  { left. injection Hrun as <- <-. split; [reflexivity |].
    split; [discriminate |]. flat_trace. reflexivity. }
  right. split; [reflexivity |].
  rewrite (run_bind (watchAll _ _)) in Hrun.
  match type of Hrun with
  | context [watchAll roleParent ?ids ?st] =>
      destruct (watchAll_launches roleParent ids st)
        as (out1 & f1 & evs1 & Hw1 & Hf1 & Hout1); [discriminate |]
  end.
  rewrite Hw1 in Hrun. clear Hw1. cbn [fw etcd trace watch_callback] in *.
  pose proof (f_equal epoch Hf1) as Hepoch1.
  pose proof (f_equal taskID Hf1) as Htask1.
  pose proof (f_equal name Hf1) as Hname1.
  pose proof (f_equal ln Hf1) as Hln1.
  cbn in Hepoch1, Htask1, Hname1, Hln1.
  destruct Hout1 as [(-> & Hl1) | (-> & evs1' & -> & Hl1)].
  2:{ exists evs1'. split; [exact Hl1 |]. left. injection Hrun as <- <-.
      split; [reflexivity |]. flat_trace. reflexivity. }
  exists evs1. split; [exact Hl1 |]. right.
  mstep_in Hrun. rewrite (run_bind (watchAll _ _)) in Hrun.
  match type of Hrun with
  | context [watchAll roleChild ?ids ?st] =>
      destruct (watchAll_launches roleChild ids st)
        as (out2 & f2 & evs2 & Hw2 & Hf2 & Hout2); [discriminate |]
  end.
  rewrite Hw2 in Hrun. clear Hw2. cbn [fw etcd trace watch_callback] in *.
  pose proof (f_equal epoch Hf2) as Hepoch2.
  pose proof (f_equal taskID Hf2) as Htask2.
  pose proof (f_equal name Hf2) as Hname2.
  pose proof (f_equal ln Hf2) as Hln2.
  cbn in Hepoch2, Htask2, Hname2, Hln2.
  destruct Hout2 as [(-> & Hl2) | (-> & evs2' & -> & Hl2)].
  2:{ exists evs2'. split; [exact Hl2 |]. left. injection Hrun as <- <-.
      split; [reflexivity |]. flat_trace. reflexivity. }
  exists evs2. split; [exact Hl2 |]. right.
  mstep_in Hrun. rewrite (run_bind (epoch_loop _)) in Hrun.
  match type of Hrun with
  | context [epoch_loop ?l ?st] =>
      destruct (epoch_loop_state l st) as (f3 & Hloop & Hsame3 & Hepoch3)
  end.
  rewrite Hloop in Hrun. clear Hloop. mstep_in Hrun.
  pose proof (f_equal taskID Hsame3) as Htask3.
  pose proof (f_equal name Hsame3) as Hname3.
  pose proof (f_equal ln Hsame3) as Hln3.
  cbn in Hepoch3, Htask3, Hname3, Hln3.
  injection Hrun as <- <-. split; [reflexivity |]. flat_trace.
  rewrite Hepoch2, Hepoch1. split; [reflexivity |].
  repeat split; congruence.
Qed.

Lemma acquisition_before_serving (evs : list event) :
  Forall (fun e => is_acquisition e = true) evs ->
  Forall (fun e => before_serving e = true) evs.
Proof.
  intros Hall. eapply Forall_impl; [exact Hall |].
  intros [] H; try discriminate; reflexivity.
Qed.

Lemma launches_before_serving (cb : callback) (ids : list Z) (evs : list event) :
  Forall (launches_for cb ids) evs ->
  Forall (fun e => before_serving e = true) evs.
Proof.
  intros Hall. eapply Forall_impl; [exact Hall |].
  intros [] H; try contradiction; try reflexivity.
  destruct g; try contradiction; reflexivity.
Qed.

Lemma before_serving_release (evs : list event) :
  Forall (fun e => before_serving e = true) evs ->
  Forall (fun e => before_release e = true) evs.
Proof.
  intros Hall. eapply Forall_impl; [exact Hall |].
  intros [] H; try discriminate; reflexivity.
Qed.

(** How [Start] ends, read off its trace. *)
Lemma Start_ends (f : framework) (s : Etcd.store) :
  let r := Start env (boot f s) in
  match fst r with
  | Ret _ => True
  | Exited =>
      exists pre e,
        trace (snd r) = (pre ++ [e])%list
        /\ is_main_fatal e = true
        /\ Forall (fun e => before_serving e = true) pre
  | Panicked => False
  end.
Proof.
  cbn zeta.
  destruct (Start_trace f s) as (acq & id & (Hacq & _) & Hcases).
  apply acquisition_before_serving in Hacq.
  unfold init_events, liveness_events, serving_events in Hcases.
  destruct Hcases
    as [(-> & Htr)
       | [(-> & _ & Htr)
         | (_ & evs1 & Hl1 &
            [(-> & Htr)
            | (evs2 & Hl2 & [(-> & Htr) | (-> & _)])])]];
    try exact I;
    try apply launches_before_serving in Hl1;
    try apply launches_before_serving in Hl2;
    rewrite Htr.
  - exists acq, occupy_failed. auto.
  - exists (acq ++ [GetTask id; SetTaskID id; Init id;
                    GetAndWatchEpoch (name f)])%list, epoch_failed.
    split; [rewrite <- app_assoc; reflexivity |]. split; [reflexivity |].
    forall_split; auto.
  - exists (acq ++ [GetTask id; SetTaskID id; Init id;
                    GetAndWatchEpoch (name f)]
                ++ [Go go_heartbeat; Go go_detectAndReportFailures;
                    GetParents (fst (epoch_fetch env))]
                ++ evs1)%list, get_failed.
    split; [rewrite <- ?app_assoc; reflexivity |]. split; [reflexivity |].
    forall_split; auto.
  - exists (acq ++ [GetTask id; SetTaskID id; Init id;
                    GetAndWatchEpoch (name f)]
                ++ [Go go_heartbeat; Go go_detectAndReportFailures;
                    GetParents (fst (epoch_fetch env))]
                ++ evs1 ++ GetChildren (fst (epoch_fetch env)) :: evs2)%list,
      get_failed.
    split; [rewrite <- ?app_assoc; cbn [app]; rewrite <- ?app_assoc;
            reflexivity |].
    split; [reflexivity |]. forall_split; auto.
Qed.

(** X9. When [Start] exits through [log.Fatalf], the fatal line is that of
    a failed slot acquisition, a failed epoch fetch or a failed baseline
    read, it is the last thing the main goroutine does, and until then the
    data server has not been started, no epoch has been handed to the task
    and nothing has been released. *)
Theorem Start_exits_before_serving (f : framework) (s : Etcd.store) :
  let r := Start env (boot f s) in
  fst r = Exited ->
  exists pre e,
    trace (snd r) = (pre ++ [e])%list
    /\ is_main_fatal e = true
    /\ Forall (fun e => before_serving e = true) pre.
Proof.
  cbn zeta. intros Hexit.
  pose proof (Start_ends f s) as Hends. cbn zeta in Hends.
  rewrite Hexit in Hends. exact Hends.
Qed.

(** X10. The resources are released exactly when [Start] returns, and then
    as the very last thing, once: the trace of a run that returns ends with
    the release and has no release, exit or panic before it; the trace of a
    run that exits has no release at all. *)
Theorem Start_releases_on_return_only (f : framework) (s : Etcd.store) :
  let r := Start env (boot f s) in
  match fst r with
  | Ret _ =>
      exists pre,
        trace (snd r) = (pre ++ [ReleaseResources])%list
        /\ Forall (fun e => before_release e = true) pre
  | _ => ~ In ReleaseResources (trace (snd r))
  end.
Proof.
  cbn zeta.
  assert (Hno : forall pre e,
             Forall (fun e => before_serving e = true) pre ->
             is_main_fatal e = true ->
             ~ In ReleaseResources (pre ++ [e])).
  { intros pre e Hpre He Hin. apply in_app_iff in Hin as [Hin | [Heq | []]].
    - rewrite List.Forall_forall in Hpre. specialize (Hpre _ Hin).
      discriminate Hpre.
    - subst e. discriminate He. }
  pose proof (Start_ends f s) as Hexit. cbn zeta in Hexit.
  destruct (Start_trace f s) as (acq & id & (Hacq & _) & Hcases).
  destruct (fst (Start env (boot f s))) eqn:Hout.
  - apply acquisition_before_serving, before_serving_release in Hacq.
    unfold init_events, liveness_events, serving_events in Hcases.
    destruct Hcases
      as [([=] & _)
         | [([=] & _)
           | (_ & evs1 & Hl1 &
              [([=] & _)
              | (evs2 & Hl2 & [([=] & _) | (_ & Htr & _)])])]].
    apply launches_before_serving, before_serving_release in Hl1.
    apply launches_before_serving, before_serving_release in Hl2.
    rewrite Htr.
    exists (acq ++ [GetTask id; SetTaskID id; Init id;
                    GetAndWatchEpoch (name f)]
                ++ [Go go_heartbeat; Go go_detectAndReportFailures;
                    GetParents (fst (epoch_fetch env))]
                ++ evs1 ++ GetChildren (fst (epoch_fetch env)) :: evs2
                ++ [Go go_startHTTP; Go go_dataResponseReceiver;
                    Printf "Start the work, task: %d\n";
                    SetEpoch (fst (epoch_fetch env))]
                ++ map SetEpoch (epoch_updates env))%list.
    split.
    + rewrite <- ?app_assoc. cbn [app]. rewrite <- ?app_assoc. cbn [app].
      rewrite <- ?app_assoc. reflexivity.
    + forall_split; auto.
      apply List.Forall_forall. intros e Hin.
      apply in_map_iff in Hin as (x & <- & _). reflexivity.
  - destruct Hexit as (pre & e & -> & He & Hpre). apply Hno; assumption.
  - contradiction.
Qed.

(** X11. When the epoch cannot be fetched, [Start] exits without having
    started anything: no goroutine is launched (no heartbeat, no failure
    detection, no watch, no data server), no neighbour's key is read, and no
    epoch is handed to the task. *)
Theorem Start_without_epoch_starts_nothing (f : framework) (s : Etcd.store)
        (err : error) :
  snd (epoch_fetch env) = Some err ->
  let r := Start env (boot f s) in
  fst r = Exited
  /\ Forall (fun e => nothing_started e = true) (trace (snd r)).
Proof.
  intros Hfetch. cbn zeta.
  destruct (Start_trace f s) as (acq & id & (Hacq & _) & Hcases).
  assert (Hacq' : Forall (fun e => nothing_started e = true) acq).
  { eapply Forall_impl; [exact Hacq |].
    intros [] H; try discriminate; try reflexivity.
    destruct sorted, recursive; try discriminate; reflexivity. }
  destruct Hcases as [(Hout & Htr) | [(Hout & _ & Htr) | (Hnone & _)]].
  - rewrite Htr. split; [exact Hout |]. forall_split; auto.
  - rewrite Htr. split; [exact Hout |]. unfold init_events.
    forall_split; auto.
  - congruence.
Qed.

Lemma last_cons {A : Type} (x : A) (l : list A) (d : A) :
  List.last (x :: l) d = List.last l x.
Proof.
  revert x. induction l as [| y l IH]; intros x; [reflexivity |].
  change (List.last (y :: l) d = List.last (y :: l) x). apply last_default.
Qed.

Lemma launches_epochs (cb : callback) (ids : list Z) (evs : list event) :
  Forall (launches_for cb ids) evs -> epochs evs = [].
Proof.
  induction 1 as [| e evs He _ IH]; [reflexivity |].
  destruct e; try contradiction; exact IH.
Qed.

(** X12. When [Start] returns, the framework's fields agree with what the
    task was told: [f.taskID] is the ID [Task.Init] was called with,
    [f.epoch] is the epoch of the last call of [Task.SetEpoch], and the job
    name and the listener address are those the node was created with. *)
Theorem Start_fields_agree_with_task (f : framework) (s : Etcd.store) :
  let r := Start env (boot f s) in
  match fst r with
  | Ret _ =>
      In (Init (taskID (fw (snd r)))) (trace (snd r))
      /\ List.last (epochs (trace (snd r))) 0 = epoch (fw (snd r))
      /\ name (fw (snd r)) = name f
      /\ ln (fw (snd r)) = ln f
  | _ => True
  end.
Proof.
  cbn zeta.
  destruct (Start_trace f s) as (acq & id & (Hacq & _) & Hcases).
  destruct Hcases
    as [(-> & _)
       | [(-> & _)
         | (_ & evs1 & Hl1 &
            [(-> & _)
            | (evs2 & Hl2 & [(-> & _)
                            | (-> & Htr & Htask & Hepoch & Hname & Hln)])])]];
    try exact I.
  rewrite Htr, Htask, Hepoch. split; [| split; [| auto]].
  - apply in_app_iff. right. cbn. auto.
  - rewrite !epochs_app, (acquisition_epochs acq Hacq),
      (launches_epochs _ _ _ Hl1).
    change (GetChildren (fst (epoch_fetch env)) :: evs2
              ++ serving_events (fst (epoch_fetch env))
              ++ map SetEpoch (epoch_updates env) ++ [ReleaseResources])%list
      with ([GetChildren (fst (epoch_fetch env))]
              ++ evs2 ++ serving_events (fst (epoch_fetch env))
              ++ map SetEpoch (epoch_updates env) ++ [ReleaseResources])%list.
    rewrite !epochs_app, (launches_epochs _ _ _ Hl2), epochs_SetEpoch.
    cbn. rewrite app_nil_r. apply last_cons.
Qed.

Lemma claims_past_acquisition (evs : list event) :
  Forall (fun e => past_acquisition e = true) evs -> claims evs = [].
Proof.
  induction 1 as [| e evs He _ IH]; [reflexivity |].
  destruct e; try discriminate; exact IH.
Qed.

Lemma launches_past_acquisition (cb : callback) (ids : list Z)
      (evs : list event) :
  Forall (launches_for cb ids) evs ->
  Forall (fun e => past_acquisition e = true) evs.
Proof.
  intros Hall. eapply Forall_impl; [exact Hall |].
  intros [] H; try contradiction; reflexivity.
Qed.

(** What slot acquisition settled stays settled: nothing after [Task.Init]
    claims a slot, stands by or initialises the task again. *)
Lemma runs_as_later (acq post : list event) (id id' : Z) :
  Forall (fun e => is_acquisition e = true) acq ->
  runs_as env acq id' ->
  Forall (fun e => past_acquisition e = true) post ->
  In (Init id) (acq ++ [GetTask id'; SetTaskID id'; Init id'] ++ post) ->
  runs_as env (acq ++ [GetTask id'; SetTaskID id'; Init id'] ++ post) id.
Proof.
  intros Hacq Hruns Hpost Hin.
  assert (id = id') as ->.
  { apply in_app_iff in Hin as [Hin | Hin].
    - rewrite List.Forall_forall in Hacq. specialize (Hacq _ Hin).
      discriminate Hacq.
    - destruct Hin as [[=] | [[=] | [[= ->] | Hin]]]; [reflexivity |].
      rewrite List.Forall_forall in Hpost. specialize (Hpost _ Hin).
      discriminate Hpost. }
  assert (Hclaims : claims (acq ++ [GetTask id'; SetTaskID id'; Init id']
                                ++ post) = claims acq).
  { rewrite !claims_app, (claims_past_acquisition post Hpost).
    cbn. rewrite app_nil_r. reflexivity. }
  unfold runs_as. rewrite Hclaims.
  destruct Hruns as [Hclaimed | (Hzero & Hrefused & Hstandby)];
    [left; exact Hclaimed | right].
  split; [exact Hzero |]. split; [exact Hrefused |].
  apply in_app_iff. left. exact Hstandby.
Qed.


End StartMore.

(** ** Whole runs: the task hears about its neighbours only *)

Section RunMore.

Context {golib : GoLib} {etcdutil : EtcdUtil}.
Variable env : Env.
Variable f : framework.

(** Every event of a run satisfies a property that the main goroutine
    keeps and that passes from a launch to the goroutine launched. *)
Lemma run_events_launched (P : event -> Prop) (c c' : config)
      (tr : list event) :
  (forall g, P (Go g) -> Forall P (body env f g)) ->
  run env f c tr c' ->
  Forall P (fst c) -> Forall (Forall P) (snd c) -> Forall P tr.
Proof.
  intros Hbody. induction 1 as [c | e main pool tr c' Hrun IH
                                  | e g p1 p2 main tr c' Hrun IH];
    cbn [fst snd]; intros Hmain Hpool.
  - constructor.
  - inversion Hmain as [| ? ? He Hmain']; subst. constructor; [exact He |].
    apply IH; unfold after; destruct (is_exit e); cbn [fst snd]; auto.
    apply Forall_app. split; [exact Hpool |].
    destruct e; cbn; auto.
  - apply Forall_app in Hpool as [Hp1 Hp2].
    inversion Hp2 as [| ? ? Heg Hp2']; subst.
    inversion Heg as [| ? ? He Hg]; subst. constructor; [exact He |].
    apply IH; unfold after; destruct (is_exit e); cbn [fst snd]; auto.
    apply Forall_app. split; auto.
Qed.

Lemma body_about_neighbours (id e0 : Z) (g : goroutine) :
  about_neighbours env id e0 (Go g) ->
  Forall (about_neighbours env id e0) (body env f g).
Proof.
  destruct g as [| | | | p i | cb n p i resp]; intros Hg;
    [constructor | constructor | | constructor | constructor |].
  - unfold body, startHTTP. destruct (serve_result env); repeat constructor.
  - unfold body, deliver. apply Forall_app. split.
    + destruct resp; [destruct cb |]; repeat constructor; exact Hg.
    + induction (received env p i) as [| r l IH]; [constructor |].
      cbn [deliver_loop]. destruct (negb _); [exact IH |].
      destruct cb; repeat constructor; auto.
Qed.

Lemma launches_about_neighbours (id e0 : Z) (cb : callback) (evs : list event) :
  Forall (launches_for cb
            (match cb with
             | cbParentMetaReady => parents env id e0
             | cbChildMetaReady => children env id e0
             end)) evs ->
  Forall (about_neighbours env id e0) evs.
Proof.
  intros Hall. eapply Forall_impl; [exact Hall |].
  intros [] H; try contradiction; try exact I.
  destruct g; try contradiction; try exact I.
  destruct H as [-> Hin]. destruct cb; exact Hin.
Qed.

Lemma acquisition_about_neighbours (id e0 : Z) (evs : list event) :
  Forall (fun e => is_acquisition e = true) evs ->
  Forall (about_neighbours env id e0) evs.
Proof.
  intros Hall. eapply Forall_impl; [exact Hall |].
  intros [] H; try discriminate; exact I.
Qed.

(** X13. In every run of the process, at every moment, there is one task
    ID such that every call of [Task.Init] so far was made with it, every
    call of [ParentMetaReady] was about a parent of that task and every
    call of [ChildMetaReady] about a child of that task, in the topology of
    the epoch fetched at start. *)
Theorem task_hears_about_neighbours_only (s : Etcd.store) (tr : list event)
        (c : config) :
  Start_run env f s tr c ->
  exists id,
    let e0 := fst (epoch_fetch env) in
    Forall (fun e =>
              match e with
              | Init id' => id' = id
              | ParentMetaReady n _ => In n (parents env id e0)
              | ChildMetaReady n _ => In n (children env id e0)
              | _ => True
              end) tr.
Proof.
  unfold Start_run, main_events. intros Hrun.
  destruct (Start_trace env f s) as (acq & id & (Hacq & _) & Hcases).
  exists id. cbn zeta.
  assert (Hmain : Forall (about_neighbours env id (fst (epoch_fetch env)))
                         (trace (snd (Start env (boot f s))))).
  { apply (acquisition_about_neighbours id (fst (epoch_fetch env))) in Hacq.
    unfold init_events, liveness_events, serving_events in Hcases.
    destruct Hcases
      as [(_ & ->)
         | [(_ & _ & ->)
           | (_ & evs1 & Hl1 &
              [(_ & ->)
              | (evs2 & Hl2 & [(_ & ->) | (_ & -> & _)])])]];
      try apply (launches_about_neighbours id _ cbParentMetaReady) in Hl1;
      try apply (launches_about_neighbours id _ cbChildMetaReady) in Hl2;
      forall_split; auto; try exact I; try reflexivity.
    induction (epoch_updates env); constructor; auto. exact I. }
  assert (Hall : Forall (about_neighbours env id (fst (epoch_fetch env))) tr).
  { eapply (run_events_launched _ _ _ _ (body_about_neighbours id _) Hrun);
      cbn [fst snd]; [exact Hmain | constructor]. }
  eapply Forall_impl; [exact Hall |].
  intros [] H; try exact I; exact H.
Qed.

End RunMore.

(** ** The baseline read and the watch together *)

Section ReadThenWatch.

Lemma history_later (key : string) (cs : list change) : forall s : Etcd.store,
  exists new,
    Etcd.history (later s cs) = (Etcd.history s ++ new)%list
    /\ Forall (fun r => Etcd.index s < Etcd.ModifiedIndex (RNode r)) new
    /\ map (fun r => Value (RNode r)) (writes (List.filter (on_key key) new))
       = later_writes key cs.
Proof.
  induction cs as [| c cs IH]; intros s.
  - exists []. cbn. rewrite app_nil_r. auto.
  - cbn [later fold_left]. fold (later (apply_change s c) cs).
    destruct (IH (apply_change s c)) as (new & Hhist & Hnew & Hvalues).
    destruct c as [k v | k]; cbn [apply_change later_writes omap list_omap] in *.
    + exists (Etcd.mkResponse "set" (Etcd.mkNode k v false (Etcd.index s + 1) [])
                              (Etcd.index s + 1) :: new).
      rewrite Hhist. cbn [Etcd.Set_ Etcd.commit Etcd.history Etcd.index] in *.
      rewrite <- app_assoc. split; [reflexivity |]. split.
      * constructor; [cbn; lia |].
        eapply Forall_impl; [exact Hnew |]. cbn. intros r Hr. lia.
      * cbn [List.filter]. unfold on_key at 1. cbn [RNode Key].
        fold (later_writes key cs).
        destruct (String.eqb k key); [| exact Hvalues].
        cbn [writes List.filter Action String.eqb Ascii.eqb Bool.eqb map
             RNode Value].
        fold (writes (List.filter (on_key key) new)).
        f_equal. exact Hvalues.
    + fold (later_writes key cs). unfold Etcd.Delete in *.
      destruct (Etcd.nodes s !! k) as [old |].
      * exists (Etcd.mkResponse "delete" (Etcd.mkNode k "" false (Etcd.index s + 1) [])
                                (Etcd.index s + 1) :: new).
        rewrite Hhist. cbn [Etcd.commit Etcd.history Etcd.index] in *.
        rewrite <- app_assoc. split; [reflexivity |]. split.
        -- constructor; [cbn; lia |].
           eapply Forall_impl; [exact Hnew |]. cbn. intros r Hr. lia.
        -- cbn [List.filter]. unfold on_key at 1. cbn [RNode Key].
           destruct (String.eqb k key); exact Hvalues.
      * exists new. auto.
Qed.

Lemma filter_none {A : Type} (p : A -> bool) (l : list A) :
  Forall (fun x => p x = false) l -> List.filter p l = [].
Proof.
  induction 1 as [| x l Hx _ IH]; [reflexivity |]. cbn. rewrite Hx. exact IH.
Qed.

Lemma filter_and_all {A : Type} (p q : A -> bool) (l : list A) :
  Forall (fun x => q x = true) l ->
  List.filter (fun x => p x && q x) l = List.filter p l.
Proof.
  induction 1 as [| x l Hx _ IH]; [reflexivity |]. cbn.
  rewrite Hx, andb_true_r, IH. reflexivity.
Qed.

(** X14. Reading the baseline and then watching from the read's index plus
    one loses no write and repeats none: if the key was there when the node
    read it, then whatever neighbours do to the store afterwards, the
    delivery goroutine hands the task the value read and then the value of
    each later write to the key, one call per write, in the order of the
    writes; no event from before the read is delivered, and writes to other
    keys and deletions produce no call. *)
Theorem read_then_watch_delivers_each_later_write
        (s : Etcd.store) (key : string) (resp : Response)
        (cb : callback) (id : Z) (cs : list change) :
  well_indexed s ->
  0 <= Etcd.index s < uint64_max ->
  Etcd.Get s key false false = inl resp ->
  callbacks
    (deliver cb id (Some resp)
       (Etcd.Watch (Etcd.history (later s cs)) (Etcd.index s) key
                   (add64 (EtcdIndex resp) 1)))
  = call cb id (Value (RNode resp)) :: map (call cb id) (later_writes key cs).
Proof.
  intros Hwf Hindex Hget.
  assert (Hidx : EtcdIndex resp = Etcd.index s).
  { unfold Etcd.Get in Hget. destruct (Etcd.fault s); [discriminate |].
    destruct (Etcd.nodes s !! key); [| discriminate].
    injection Hget as <-. reflexivity. }
  rewrite Hidx, add64_succ by exact Hindex.
  destruct (history_later key cs s) as (new & Hhist & Hnew & Hvalues).
  rewrite callbacks_deliver. cbn [app]. f_equal.
  rewrite <- Hvalues, map_map. f_equal.
  unfold Etcd.Watch.
  destruct (Z.eqb_spec (Etcd.index s + 1) 0) as [H0 | _]; [lia |].
  rewrite Hhist, List.filter_app.
  rewrite (filter_none _ (Etcd.history s)).
  - cbn [app]. fold (on_key key).
    rewrite (filter_and_all (on_key key)); [reflexivity |].
    eapply Forall_impl; [exact Hnew |]. cbn. intros r Hr.
    apply Z.leb_le. lia.
  - eapply Forall_impl; [exact Hwf |]. cbn. intros r Hr.
    apply andb_false_intro2. apply Z.leb_gt. lia.
Qed.

End ReadThenWatch.

(** ** The statements above at concrete inputs *)

Section MoreExamples.

#[local] Existing Instance decimal_lib.
#[local] Existing Instance example_layout.

(** [Sync] then [Open], at a reachable bucket and the checkpoint file. *)
Lemma Sync_then_Open_witness :
  Store.online bucket_before = true
  /\ let '(s', _, err) := Store.Sync bucket_before checkpoint in
     err = None
     /\ exists f',
         Store.Open s' (Store.Bucket checkpoint) (Store.keyPath checkpoint)
           = inl f'
         /\ Store.Bucket f' = Store.Bucket checkpoint
         /\ Store.keyPath f' = Store.keyPath checkpoint
         /\ Store.Bytes (Store.fbuf f') = Store.Bytes (Store.fbuf checkpoint).
Proof.
  split; [reflexivity |].
  exact (Sync_then_Open bucket_before checkpoint eq_refl).
Defined.

(** [Sync] of the checkpoint file leaves an object under another key of
    the same bucket alone. *)
Lemma Sync_leaves_other_objects_witness :
  ("bucket", "other") <> (Store.Bucket checkpoint, Store.keyPath checkpoint)
  /\ let '(s', _, _) := Store.Sync bucket_before checkpoint in
     Store.objects s' !! ("bucket", "other")
       = Store.objects bucket_before !! ("bucket", "other")
     /\ Store.online s' = Store.online bucket_before.
Proof.
  assert (H : ("bucket", "other")
              <> (Store.Bucket checkpoint, Store.keyPath checkpoint))
    by (cbn; discriminate).
  split; [exact H |].
  exact (Sync_leaves_other_objects bucket_before checkpoint "bucket" "other" H).
Defined.

(** The node on [two_slots] when the epoch cannot be fetched. *)
Lemma Start_without_epoch_witness :
  snd (epoch_fetch env_no_epoch) = Some (errorString "epoch unavailable")
  /\ let r := Start env_no_epoch (boot node two_slots) in
     fst r = Exited
     /\ Forall (fun e => nothing_started e = true) (trace (snd r)).
Proof.
  split; [reflexivity |].
  exact (Start_without_epoch_starts_nothing env_no_epoch node two_slots
           (errorString "epoch unavailable") eq_refl).
Defined.

(** The run of the node that took slot 0 under a controller that raises the
    epoch twice. *)
Lemma task_hears_about_neighbours_witness :
  Start_run env_forward node two_slots
            (main_events env_forward node two_slots) ([], idle_pool)
  /\ exists id,
       let e0 := fst (epoch_fetch env_forward) in
       Forall (fun e =>
                 match e with
                 | Init id' => id' = id
                 | ParentMetaReady n _ => In n (parents env_forward id e0)
                 | ChildMetaReady n _ => In n (children env_forward id e0)
                 | _ => True
                 end) (main_events env_forward node two_slots).
Proof.
  split; [exact forward_run |].
  exact (task_hears_about_neighbours_only env_forward node two_slots
           _ _ forward_run).
Defined.

(** Task 0's metadata read in [published], and what the neighbours do
    after: the parent's callback gets the value read and the two later
    values. *)
Lemma read_then_watch_witness :
  well_indexed published
  /\ 0 <= Etcd.index published < uint64_max
  /\ Etcd.Get published "/job/childMeta/0" false false = inl baseline_read
  /\ callbacks
       (deliver cbParentMetaReady 0 (Some baseline_read)
          (Etcd.Watch (Etcd.history (later published neighbour_changes))
                      (Etcd.index published) "/job/childMeta/0"
                      (add64 (EtcdIndex baseline_read) 1)))
     = call cbParentMetaReady 0 (Value (RNode baseline_read))
       :: map (call cbParentMetaReady 0)
              (later_writes "/job/childMeta/0" neighbour_changes).
Proof.
  assert (Hwf : well_indexed published).
  { unfold well_indexed. vm_compute Etcd.history. vm_compute Etcd.index.
    repeat constructor; cbn; lia. }
  assert (Hindex : 0 <= Etcd.index published < uint64_max)
    by (vm_compute; split; [discriminate | reflexivity]).
  assert (Hget : Etcd.Get published "/job/childMeta/0" false false
                 = inl baseline_read)
    by (vm_compute; reflexivity).
  split; [exact Hwf |]. split; [exact Hindex |]. split; [exact Hget |].
  exact (read_then_watch_delivers_each_later_write
           published "/job/childMeta/0" baseline_read cbParentMetaReady 0
           neighbour_changes Hwf Hindex Hget).
Defined.

(** The same, computed: three calls, in the order of the writes. *)
Example read_then_watch_computed :
  later_writes "/job/childMeta/0" neighbour_changes = ["meta1"; "meta2"]
  /\ callbacks
       (deliver cbParentMetaReady 0 (Some baseline_read)
          (Etcd.Watch (Etcd.history (later published neighbour_changes))
                      (Etcd.index published) "/job/childMeta/0"
                      (add64 (EtcdIndex baseline_read) 1)))
     = [ParentMetaReady 0 "meta0"; ParentMetaReady 0 "meta1";
        ParentMetaReady 0 "meta2"].
Proof. split; vm_compute; reflexivity. Qed.


(** The node that claims slot 0 of [two_slots] and cannot fetch the epoch
    exits. *)
Lemma Start_exits_witness :
  fst (Start env_no_epoch (boot node two_slots)) = Exited
  /\ exists pre e,
      trace (snd (Start env_no_epoch (boot node two_slots)))
      = (pre ++ [e])%list
      /\ is_main_fatal e = true
      /\ Forall (fun e => before_serving e = true) pre.
Proof.
  assert (H : fst (Start env_no_epoch (boot node two_slots)) = Exited)
    by (vm_compute; reflexivity).
  split; [exact H |].
  exact (Start_exits_before_serving env_no_epoch node two_slots H).
Defined.

End MoreExamples.
